(** * Pane.tsx: command routing and input sizing of a chat pane

    A shallow embedding of [src/components/pane/Pane.tsx]: the key handler
    [onKeydown] of a pane's text area (plain messages and the [/newpane]
    command) and the layout effect that sizes the text area.

    Conventions.
    - A JavaScript string is a sequence of UTF-16 code units.  The model keeps
      the code units U+0000..U+00FF, one [ascii] each, so a draft is a
      [string]; [toLowerCase] and [trim] are the standard functions on that
      range.
    - DOM lengths ([window.innerHeight], [scrollHeight]) and the result of
      [parseInt] are integers ([Z]); the quotient [innerHeight / 2.5] is a
      rational ([Q]).  On 32-bit DOM integers the double-precision operations
      of the source ([/], [>], [Math.ceil], [*]) agree with exact arithmetic.
    - The handler is an [async] function with effects: it is written in a
      small state-and-rejection monad whose state records the React draft
      cell and the trace of effects. *)

From Stdlib Require Import String Ascii List ZArith QArith Qround Bool Lia.
Import ListNotations.

Close Scope Q_scope.
Local Open Scope string_scope.
Local Open Scope Z_scope.

(** ** JavaScript strings *)

Module JsString.

(** [s.startsWith(p)] *)
Definition startsWith (s p : string) : bool := String.prefix p s.

(** [s.split(sep)] for a one-character separator: the pieces between the
    occurrences of [sep]; never the empty array. *)
Fixpoint split (sep : ascii) (s : string) : list string :=
  match s with
  | EmptyString => [EmptyString]
  | String c s' =>
      if Ascii.eqb c sep then EmptyString :: split sep s'
      else match split sep s' with
           | [] => [String c EmptyString]
           | p :: ps => String c p :: ps
           end
  end.

(** [parts.slice(1)] *)
Definition slice1 (parts : list string) : list string := tl parts.

(** [parts.join(sep)] *)
Definition join (sep : string) (parts : list string) : string :=
  String.concat sep parts.

(** [parts[0]] of a non-empty array. *)
Definition first (parts : list string) : string := hd EmptyString parts.

(** [toLowerCase] on one code unit of U+0000..U+00FF: the letters A-Z and
    U+00C0..U+00DE (without the multiplication sign U+00D7) move up by 32. *)
Definition lowerChar (c : ascii) : ascii :=
  let n := nat_of_ascii c in
  if ((65 <=? n) && (n <=? 90))%nat then ascii_of_nat (n + 32)
  else if ((192 <=? n) && (n <=? 222) && negb (n =? 215))%nat
       then ascii_of_nat (n + 32)
       else c.

Fixpoint toLowerCase (s : string) : string :=
  match s with
  | EmptyString => EmptyString
  | String c s' => String (lowerChar c) (toLowerCase s')
  end.

(** White space and line terminators of ECMAScript in U+0000..U+00FF:
    TAB, LF, VT, FF, CR, SPACE and NO-BREAK SPACE. *)
Definition isWhiteSpace (c : ascii) : bool :=
  let n := nat_of_ascii c in
  ((9 <=? n) && (n <=? 13) || (n =? 32) || (n =? 160))%nat.

Fixpoint trimStart (s : string) : string :=
  match s with
  | EmptyString => EmptyString
  | String c s' => if isWhiteSpace c then trimStart s' else s
  end.

Fixpoint trimEnd (s : string) : string :=
  match s with
  | EmptyString => EmptyString
  | String c s' =>
      match trimEnd s' with
      | EmptyString => if isWhiteSpace c then EmptyString
                       else String c EmptyString
      | t => String c t
      end
  end.

(** [s.trim()] *)
Definition trim (s : string) : string := trimEnd (trimStart s).

(** Every character of [s] is white space. *)
Fixpoint allWhiteSpace (s : string) : bool :=
  match s with
  | EmptyString => true
  | String c s' => isWhiteSpace c && allWhiteSpace s'
  end.

(** Value of a digit in the given radix, if it is one. *)
Definition digitValue (radix : Z) (c : ascii) : option Z :=
  let n := Z.of_nat (nat_of_ascii c) in
  let v := if (48 <=? n) && (n <=? 57) then Some (n - 48)
           else if (97 <=? n) && (n <=? 122) then Some (n - 87)
           else if (65 <=? n) && (n <=? 90) then Some (n - 55)
           else None in
  match v with
  | Some d => if d <? radix then Some d else None
  | None => None
  end.

(** The longest prefix of digits, read as a number; [None] when the prefix
    is empty. [acc] carries the digits read so far. *)
Fixpoint digits (radix : Z) (acc : option Z) (s : string) : option Z :=
  match s with
  | EmptyString => acc
  | String c s' =>
      match digitValue radix c with
      | Some d =>
          digits radix (Some (radix * match acc with Some a => a | None => 0 end + d)) s'
      | None => acc
      end
  end.

(** [parseInt(s)] with no radix argument: leading white space is skipped,
    a sign is read, a [0x] or [0X] prefix selects radix 16, and the longest
    prefix of digits is the value. [None] stands for [NaN]. *)
Definition parseInt (s : string) : option Z :=
  let s1 := trimStart s in
  let '(sign, s2) :=
    match s1 with
    | String "-" r => (-1, r)
    | String "+" r => (1, r)
    | _ => (1, s1)
    end in
  let '(radix, s3) :=
    match s2 with
    | String "0" (String "x" r) => (16, r)
    | String "0" (String "X" r) => (16, r)
    | _ => (10, s2)
    end in
  match digits radix None s3 with
  | Some v => Some (sign * v)
  | None => None
  end.

End JsString.

Import JsString.

(** ** The key handler of a pane *)

Module PaneInput.

(** A conversation key of the store ([conversationId.valueOf() as number]). *)
Definition ConversationId := Z.

(** How an awaited promise settles. *)
Inductive Completion (A : Type) :=
| Fulfilled (a : A)
| Rejected.
Arguments Fulfilled {A} a.
Arguments Rejected {A}.

Section Handler.

(** The type of [Conversation.presetId]; it is declared in [../../db],
    and the handler only passes it on. *)
Variable PresetId : Type.

(** The fields of [Conversation] (from [../../db]) read in this file. *)
Record Conversation := mkConversation {
  id : ConversationId;
  title : option string;
  presetId : option PresetId
}.

(** The field of [Pane] (from [../../state/panes]) read in this file. *)
Record Pane := mkPane { conversationId : ConversationId }.

Record PaneProps := mkPaneProps { pane : Pane; paneId : string }.

(** The fields of the React keyboard event read by the handler. *)
Record KeyboardEvent := mkKeyboardEvent {
  key : string;
  shiftKey : bool;
  ctrlKey : bool;
  metaKey : bool;
  altKey : bool
}.

(** The thunks of [../../state/conversations] the handler dispatches. *)
Inductive Action :=
| openConversation (conversationId : ConversationId) (openInNewPane : bool)
| sendMessage (conversationId : ConversationId) (text : string).

(** What the handler does to the outside, in program order.  [Dispatch]
    records whether the returned promise is awaited; [SetTimeout] keeps
    the actions its callback dispatches and the delay in milliseconds. *)
Inductive Effect :=
| PreventDefault
| SetMessageDraft (s : string)
| AddConversation (presetId : option PresetId)
| Dispatch (a : Action) (awaited : bool)
| SetTimeout (callback : list Action) (ms : Z).

(** The state the handler runs in: the React state cell of the draft, the
    store operation [db.addConversation] ([None]: the promise rejects),
    how the promise of a dispatched action settles ([false]: it rejects),
    and the effects so far. *)
Record World := mkWorld {
  draft : string;
  db_addConversation : option PresetId -> option ConversationId;
  dispatch_fulfils : Action -> bool;
  trace : list Effect
}.

(** An [async] computation: a state transformer that fulfils or rejects. *)
Definition Async (A : Type) := World -> Completion A * World.

Definition ret {A} (a : A) : Async A := fun w => (Fulfilled a, w).

Definition bind {A B} (m : Async A) (k : A -> Async B) : Async B :=
  fun w =>
    match m w with
    | (Fulfilled a, w') => k a w'
    | (Rejected, w') => (Rejected, w')
    end.

Notation "x <- m ;; k" := (bind m (fun x => k))
  (at level 61, m at next level, right associativity).
Notation "m ;; k" := (bind m (fun _ => k))
  (at level 61, right associativity).

Definition emit (ev : Effect) (w : World) : World :=
  {| draft := draft w;
     db_addConversation := db_addConversation w;
     dispatch_fulfils := dispatch_fulfils w;
     trace := trace w ++ [ev] |}.

(** The completion of an awaited promise that fulfils or rejects. *)
Definition settled (fulfils : bool) : Completion unit :=
  if fulfils then Fulfilled tt else Rejected.

(** [e.preventDefault()] *)
Definition preventDefault : Async unit :=
  fun w => (Fulfilled tt, emit PreventDefault w).

(** [setMessageDraft(s)] *)
Definition setMessageDraft (s : string) : Async unit :=
  fun w => (Fulfilled tt,
            {| draft := s;
               db_addConversation := db_addConversation w;
               dispatch_fulfils := dispatch_fulfils w;
               trace := trace w ++ [SetMessageDraft s] |}).

(** [await db.addConversation(presetId)] *)
Definition addConversation (p : option PresetId) : Async ConversationId :=
  fun w =>
    match db_addConversation w p with
    | Some cid => (Fulfilled cid, emit (AddConversation p) w)
    | None => (Rejected, emit (AddConversation p) w)
    end.

(** [dispatch(a)], or [await dispatch(a)]. An awaited dispatch settles as
    the promise of the action does, so a rejection is thrown into the
    handler; a dispatch that is not awaited lets the handler go on whatever
    becomes of the promise. *)
Definition dispatch (a : Action) (awaited : bool) : Async unit :=
  fun w => (if awaited then settled (dispatch_fulfils w a) else Fulfilled tt,
            emit (Dispatch a awaited) w).

(** [setTimeout(() => { dispatch(a) ... }, ms)] *)
Definition setTimeout (callback : list Action) (ms : Z) : Async unit :=
  fun w => (Fulfilled tt, emit (SetTimeout callback ms) w).

(** [conversation?.presetId] *)
Definition presetIdOf (conversation : option Conversation)
  : option PresetId :=
  match conversation with
  | Some c => presetId c
  | None => None
  end.

(** [onKeydown], lines 92-132.  [messageDraft] is the constant of the
    render the handler closes over: it keeps its value after
    [setMessageDraft].  The [return] that ends the [/newpane] branch is
    the [else] that skips the normal message handling. *)
Definition onKeydown (props : PaneProps)
    (conversation : option Conversation) (messageDraft : string)
    (e : KeyboardEvent) : Async unit :=
  if (key e =? "Enter")%string
     && negb (messageDraft =? "")%string
     && negb (shiftKey e)
     && negb (ctrlKey e)
     && negb (metaKey e)
     && negb (altKey e)
  then
    preventDefault ;;
    let normal :=
      setMessageDraft "" ;;
      dispatch (sendMessage (conversationId (pane props)) messageDraft)
               true in
    if startsWith messageDraft "/" then
      let parts := split " " messageDraft in
      let command := toLowerCase (first parts) in
      let content := join " " (slice1 parts) in
      if (command =? "/newpane")%string
         && negb (trim content =? "")%string
      then
        setMessageDraft "" ;;
        conversationId <- addConversation (presetIdOf conversation) ;;
        dispatch (openConversation conversationId true) false ;;
        setTimeout [sendMessage conversationId content] 100
      else normal
    else normal
  else ret tt.

(** [onInput], lines 134-136 *)
Definition onInput (value : string) : Async unit :=
  setMessageDraft value.

(** *** Reading a trace *)

(** The actions dispatched by the handler itself, in order. *)
Fixpoint dispatched (tr : list Effect) : list Action :=
  match tr with
  | [] => []
  | Dispatch a _ :: tr' => a :: dispatched tr'
  | _ :: tr' => dispatched tr'
  end.

(** The actions left to timers, with the delay of each timer. *)
Fixpoint deferred (tr : list Effect) : list (Z * list Action) :=
  match tr with
  | [] => []
  | SetTimeout cb ms :: tr' => (ms, cb) :: deferred tr'
  | _ :: tr' => deferred tr'
  end.

(** The messages in a list of actions: conversation and body. *)
Fixpoint messages (acts : list Action) : list (ConversationId * string) :=
  match acts with
  | [] => []
  | sendMessage cid text :: acts' => (cid, text) :: messages acts'
  | _ :: acts' => messages acts'
  end.

(** The panes a list of actions opens. *)
Fixpoint opened (acts : list Action) : list ConversationId :=
  match acts with
  | [] => []
  | openConversation cid _ :: acts' => cid :: opened acts'
  | _ :: acts' => opened acts'
  end.

(** Every message a trace sends, at once or when its timers fire. *)
Definition allMessages (tr : list Effect) : list (ConversationId * string) :=
  messages (dispatched tr) ++ messages (flat_map snd (deferred tr)).

(** A trace synchronizes by the clock when it sets a timer. *)
Definition usesTimer (tr : list Effect) : bool :=
  match deferred tr with
  | [] => false
  | _ :: _ => true
  end.

(** The effects that follow the store call: what the handler does once the
    creation has settled. *)
Fixpoint afterCreation (tr : list Effect) : list Effect :=
  match tr with
  | [] => []
  | AddConversation _ :: tr' => tr'
  | _ :: tr' => afterCreation tr'
  end.

(** *** The parser the handler contains *)

Inductive Submission :=
| Ignore
| PlainMessage (text : string)
| NewPaneCommand (content : string).

(** Enter with none of Shift, Ctrl, Meta, Alt. *)
Definition isSubmission (e : KeyboardEvent) : bool :=
  (key e =? "Enter")%string
  && negb (shiftKey e) && negb (ctrlKey e)
  && negb (metaKey e) && negb (altKey e).

(** [command] and [content] of lines 106-108. *)
Definition commandOf (messageDraft : string) : string :=
  toLowerCase (first (split " " messageDraft)).

Definition contentOf (messageDraft : string) : string :=
  join " " (slice1 (split " " messageDraft)).

(** The draft up to its first [sep], and the draft after it: the two halves
    the corrected splitting rule speaks of. *)
Fixpoint beforeFirst (sep : ascii) (s : string) : string :=
  match s with
  | EmptyString => EmptyString
  | String c s' =>
      if Ascii.eqb c sep then EmptyString else String c (beforeFirst sep s')
  end.

Fixpoint afterFirst (sep : ascii) (s : string) : string :=
  match s with
  | EmptyString => EmptyString
  | String c s' => if Ascii.eqb c sep then s' else afterFirst sep s'
  end.

(** The decisions of [onKeydown] on the draft (lines 96, 105 and 110),
    as the value the spec calls the parse result. *)
Definition parse (messageDraft : string) : Submission :=
  if (messageDraft =? "")%string then Ignore
  else if startsWith messageDraft "/" then
    if (commandOf messageDraft =? "/newpane")%string
       && negb (trim (contentOf messageDraft) =? "")%string
    then NewPaneCommand (contentOf messageDraft)
    else PlainMessage messageDraft
  else PlainMessage messageDraft.

(** What the handler does for each parse result. *)
Definition perform (props : PaneProps)
    (conversation : option Conversation) (r : Submission) : Async unit :=
  match r with
  | Ignore => ret tt
  | PlainMessage text =>
      preventDefault ;;
      setMessageDraft "" ;;
      dispatch (sendMessage (conversationId (pane props)) text) true
  | NewPaneCommand content =>
      preventDefault ;;
      setMessageDraft "" ;;
      conversationId <- addConversation (presetIdOf conversation) ;;
      dispatch (openConversation conversationId true) false ;;
      setTimeout [sendMessage conversationId content] 100
  end.

End Handler.

Arguments presetId {PresetId} c.
Arguments PreventDefault {PresetId}.
Arguments SetMessageDraft {PresetId} s.
Arguments AddConversation {PresetId} presetId.
Arguments Dispatch {PresetId} a awaited.
Arguments SetTimeout {PresetId} callback ms.
Arguments mkWorld {PresetId} draft db_addConversation dispatch_fulfils trace.
Arguments draft {PresetId} w.
Arguments db_addConversation {PresetId} w _.
Arguments dispatch_fulfils {PresetId} w _.
Arguments trace {PresetId} w.
Arguments ret {PresetId A} a _.
Arguments bind {PresetId A B} m k _.
Arguments emit {PresetId} ev w.
Arguments preventDefault {PresetId} _.
Arguments setMessageDraft {PresetId} s _.
Arguments addConversation {PresetId} p _.
Arguments dispatch {PresetId} a awaited _.
Arguments setTimeout {PresetId} callback ms _.
Arguments presetIdOf {PresetId} conversation.
Arguments onKeydown {PresetId} props conversation messageDraft e _.
Arguments onInput {PresetId} value _.
Arguments dispatched {PresetId} tr.
Arguments deferred {PresetId} tr.
Arguments allMessages {PresetId} tr.
Arguments usesTimer {PresetId} tr.
Arguments afterCreation {PresetId} tr.
Arguments perform {PresetId} props conversation r _.

End PaneInput.

(** ** The layout effect that sizes the text area *)

Module InputSizing.

(** [style.height]: ["auto"] or a length in pixels. *)
Inductive Height :=
| AutoHeight
| PxHeight (px : Q).

(** [style.overflowY]: ["hidden"] or ["auto"] (scrolls when needed). *)
Inductive OverflowY :=
| OverflowHidden
| OverflowAuto.

(** [style.transition]: ["none"] or ["height 0.1s ease-out"]. *)
Inductive Transition :=
| TransitionNone
| TransitionHeightEaseOut.

(** The inline style of the element; [None] is a property not set yet. *)
Record Style := mkStyle {
  height : option Height;
  overflowY : option OverflowY;
  transition : option Transition
}.

(** The text area: its value (the draft), its inline style and the scroll
    offset last assigned to it. *)
Record TextArea := mkTextArea {
  value : string;
  style : Style;
  scrollTop : Z
}.

(** What the effect reads from the browser: [window.innerHeight], the
    computed [line-height] of the element, the layout engine that measures
    the [scrollHeight] of the element in its current state, and whether the
    element is [document.activeElement]. *)
Record Browser := mkBrowser {
  innerHeight : Z;
  computedLineHeight : string;
  layout : TextArea -> Z;
  isActiveElement : bool
}.

(** [textArea.scrollHeight] *)
Definition scrollHeight (b : Browser) (textArea : TextArea) : Z :=
  layout b textArea.

(** The assignments to [style.height], [style.overflowY],
    [style.transition] and [scrollTop]. *)
Definition setHeight (h : Height) (textArea : TextArea) : TextArea :=
  {| value := value textArea;
     style := {| height := Some h;
                 overflowY := overflowY (style textArea);
                 transition := transition (style textArea) |};
     scrollTop := scrollTop textArea |}.

Definition setOverflowY (o : OverflowY) (textArea : TextArea) : TextArea :=
  {| value := value textArea;
     style := {| height := height (style textArea);
                 overflowY := Some o;
                 transition := transition (style textArea) |};
     scrollTop := scrollTop textArea |}.

Definition setTransition (t : Transition) (textArea : TextArea) : TextArea :=
  {| value := value textArea;
     style := {| height := height (style textArea);
                 overflowY := overflowY (style textArea);
                 transition := Some t |};
     scrollTop := scrollTop textArea |}.

Definition setScrollTop (y : Z) (textArea : TextArea) : TextArea :=
  {| value := value textArea;
     style := style textArea;
     scrollTop := y |}.

(** The natural content height of the draft: the [scrollHeight] of the
    element once its height is ["auto"]. *)
Definition naturalHeight (b : Browser) (textArea : TextArea) : Z :=
  scrollHeight b (setHeight AutoHeight textArea).


(** [x || d] on the result of [parseInt]: [NaN] and [0] are falsy. *)
Definition orElse (x : option Z) (d : Z) : Z :=
  match x with
  | None => d
  | Some 0 => d
  | Some n => n
  end.

(** [a > b] *)
Definition Qgtb (a b : Q) : bool := negb (Qle_bool a b).

Definition minHeight : Z := 55.

(** [window.innerHeight / 2.5] *)
Definition maxSize (b : Browser) : Q := (inject_Z (innerHeight b) / 2.5)%Q.

(** [parseInt(window.getComputedStyle(textArea).lineHeight) || 20] *)
Definition lineHeight (b : Browser) : Z :=
  orElse (parseInt (computedLineHeight b)) 20.

(** [Math.max(minHeight, textArea.scrollHeight)], measured at height
    ["auto"]. *)
Definition contentHeight (b : Browser) (textArea : TextArea) : Z :=
  Z.max minHeight (naturalHeight b textArea).

Definition isMaxSize (b : Browser) (textArea : TextArea) : bool :=
  Qgtb (inject_Z (contentHeight b textArea)) (maxSize b).

(** [Math.ceil(contentHeight / lineHeight) * lineHeight] *)
Definition roundedHeight (contentHeight lineHeight : Z) : Z :=
  Qceiling (inject_Z contentHeight / inject_Z lineHeight)%Q * lineHeight.

(** The effect of lines 56-90 on the element [textAreaRef.current]
    ([None]: the ref is null, and the effect returns at once). *)
Definition useLayoutEffect (b : Browser) (ref : option TextArea)
  : option TextArea :=
  match ref with
  | None => None
  | Some textArea =>
      let maxSize := (inject_Z (innerHeight b) / 2.5)%Q in
      let minHeight := 55 in
      let lineHeight := orElse (parseInt (computedLineHeight b)) 20 in
      let textArea := setHeight AutoHeight textArea in
      let contentHeight := Z.max minHeight (scrollHeight b textArea) in
      let isMaxSize := Qgtb (inject_Z contentHeight) maxSize in
      let textArea :=
        if isMaxSize then
          setTransition TransitionHeightEaseOut
            (setOverflowY OverflowAuto
               (setHeight (PxHeight maxSize) textArea))
        else
          let roundedHeight :=
            Qceiling (inject_Z contentHeight / inject_Z lineHeight)%Q
            * lineHeight in
          setTransition TransitionNone
            (setOverflowY OverflowHidden
               (setHeight (PxHeight (inject_Z roundedHeight)) textArea)) in
      let textArea :=
        if isActiveElement b
        then setScrollTop (scrollHeight b textArea) textArea
        else textArea in
      Some textArea
  end.

(** The sizing rule as a function of its three inputs alone, the natural
    content height of the draft, the viewport height and the line height:
    clamp to [maxSize] with scrolling and a transition, or round up to a
    multiple of the line height with neither. *)
Definition sizedStyle (b : Browser) (natural : Z) : Style :=
  let target := Z.max minHeight natural in
  if Qgtb (inject_Z target) (maxSize b) then
    {| height := Some (PxHeight (maxSize b));
       overflowY := Some OverflowAuto;
       transition := Some TransitionHeightEaseOut |}
  else
    {| height := Some (PxHeight (inject_Z (roundedHeight target (lineHeight b))));
       overflowY := Some OverflowHidden;
       transition := Some TransitionNone |}.

(** The output of the sizing computation: height, scroll mode and
    transition of the element after the effect. *)
Definition sizing (b : Browser) (textArea : TextArea) : option Style :=
  match useLayoutEffect b (Some textArea) with
  | Some t => Some (style t)
  | None => None
  end.

End InputSizing.

(** ** Concrete inputs *)

Module Scenario.

Import PaneInput.
Import InputSizing.

(** Enter, no modifier held. *)
Definition enterKey : KeyboardEvent :=
  mkKeyboardEvent "Enter" false false false false.

(** A pane bound to conversation 3. *)
Definition paneA : PaneProps := mkPaneProps (mkPane 3) "pane-a".

(** A store that creates conversation [cid], and one that fails. *)
Definition storeCreates (cid : ConversationId)
  : option string -> option ConversationId := fun _ => Some cid.

Definition storeFails : option string -> option ConversationId :=
  fun _ => None.

(** Sends that all fulfil, and sends that all reject. *)
Definition sendsFulfil : Action -> bool := fun _ => true.

Definition sendsReject : Action -> bool := fun _ => false.

(** The world before the key event: the draft as typed, nothing done yet,
    every send fulfilling. *)
Definition before (messageDraft : string)
    (store : option string -> option ConversationId) : World string :=
  mkWorld messageDraft store sendsFulfil [].

(** The same world with every send rejecting. *)
Definition beforeRejecting (messageDraft : string)
    (store : option string -> option ConversationId) : World string :=
  mkWorld messageDraft store sendsReject [].

(** A text area that has not been sized yet. *)
Definition freshTextArea (v : string) : TextArea :=
  mkTextArea v (mkStyle None None None) 0.

(** A browser window of the given height whose layout measures the text
    at [natural] pixels when the height is ["auto"] or not set, and at the
    larger of [natural] and the set height otherwise. *)
Definition browser (h : Z) (lh : string) (natural : Z) (active : bool)
  : Browser :=
  mkBrowser h lh
    (fun textArea =>
       match height (style textArea) with
       | Some (PxHeight px) => Z.max natural (Qceiling px)
       | _ => natural
       end)
    active.

End Scenario.

(** ** The rest of the component: render, clicks, focus, pane list *)

Module PaneView.

Import PaneInput.

(** [s.includes(c)] for one character. *)
Fixpoint contains (c : ascii) (s : string) : bool :=
  match s with
  | EmptyString => false
  | String d s' => Ascii.eqb d c || contains c s'
  end.

(** The handler as the current render installs it: [messageDraft] is the
    value of the state cell at that render. *)
Definition keydownOnRender {PresetId : Type} (props : PaneProps)
    (conversation : option (Conversation PresetId)) (e : KeyboardEvent)
  : Async PresetId unit :=
  fun w => onKeydown props conversation (draft w) e w.

(** [activePaneId === paneId], line 39; [None] is no active pane. *)
Definition isActivePane (activePaneId : option string) (paneId : string)
  : bool :=
  match activePaneId with
  | Some a => (a =? paneId)%string
  | None => false
  end.

(** [conversation?.title] and [conversation?.id] *)
Definition titleOf {PresetId : Type}
    (conversation : option (Conversation PresetId)) : option string :=
  match conversation with
  | Some c => title PresetId c
  | None => None
  end.

Definition idOf {PresetId : Type}
    (conversation : option (Conversation PresetId))
  : option ConversationId :=
  match conversation with
  | Some c => Some (id PresetId c)
  | None => None
  end.

(** The text of the header, lines 165-167:
    [conversation?.title == null || conversation.title === ""
       ? "New conversation" : conversation.title]. *)
Definition headerTitle {PresetId : Type}
    (conversation : option (Conversation PresetId)) : string :=
  match titleOf conversation with
  | None => "New conversation"
  | Some t => if (t =? "")%string then "New conversation" else t
  end.

(** Whether the dropdown is rendered, lines 169-171. *)
Definition showsDropdown {PresetId : Type}
    (conversation : option (Conversation PresetId)) : bool :=
  match conversation with
  | Some _ => true
  | None => false
  end.

(** *** Click handlers, lines 138-145 *)












(** *** [useFocusInputOnActive], lines 215-229 *)

(** Truthiness of [conversationId?: number]. *)
Definition truthyId (conversationId : option ConversationId) : bool :=
  match conversationId with
  | None => false
  | Some 0 => false
  | Some _ => true
  end.

(** The body of the effect: whether [ref.current.focus()] is called.
    [refCurrent] tells whether [ref.current] is an element. *)
Definition focusBody (isActive : bool)
    (conversationId : option ConversationId) (refCurrent : bool) : bool :=
  isActive && truthyId conversationId && refCurrent.

(** The dependencies [conversationId, isActive, ref] of the effect; [ref]
    is the same object at every render and is left out. *)
Record FocusDeps := mkFocusDeps {
  depConversationId : option ConversationId;
  depIsActive : bool
}.

Definition sameDeps (a b : FocusDeps) : bool :=
  match depConversationId a, depConversationId b with
  | Some x, Some y => x =? y
  | None, None => true
  | _, _ => false
  end
  && Bool.eqb (depIsActive a) (depIsActive b).

(** The hook at one render: the effect runs at mount ([prev = None]) and
    whenever a dependency differs from the previous render. The result
    tells whether the input is focused after this render. *)
Definition useFocusInputOnActive (prev : option FocusDeps)
    (isActive : bool) (conversationId : option ConversationId)
    (refCurrent : bool) : bool :=
  let runs :=
    match prev with
    | None => true
    | Some p => negb (sameDeps p (mkFocusDeps conversationId isActive))
    end in
  runs && focusBody isActive conversationId refCurrent.

(** The [autoFocus] attribute of the text area, line 198: the element is
    focused when it is mounted ([prev = None]: no earlier render). *)
Definition autoFocus (prev : option FocusDeps) (refCurrent : bool) : bool :=
  match prev with
  | None => refCurrent
  | Some _ => false
  end.

(** Whether the input of a pane is given the focus at a render: by
    [autoFocus] at mount, or by the hook as [Pane] calls it, lines 50-54. *)
Definition paneFocus {PresetId : Type} (prev : option FocusDeps)
    (activePaneId : option string) (paneId : string)
    (conversation : option (Conversation PresetId)) (refCurrent : bool)
  : bool :=
  autoFocus prev refCurrent
  || useFocusInputOnActive prev (isActivePane activePaneId paneId)
       (idOf conversation) refCurrent.

(** *** [Panes], lines 264-277 *)

Inductive PanesView :=
| StartPage
| PaneRow (panes : list PaneProps).

(** [panes] is the record of the store as [Object.entries] lists it: the
    pairs of pane id and pane, in insertion order. *)
Definition Panes (panes : list (string * Pane)) : PanesView :=
  let paneEntries := panes in
  if (Z.of_nat (List.length paneEntries) =? 0) then StartPage
  else PaneRow (map (fun entry => mkPaneProps (snd entry) (fst entry))
                    paneEntries).

(** The conversation bound to the active pane of the record, if any. *)
Definition activeConversation (panes : list (string * Pane))
    (activePaneId : option string) : option ConversationId :=
  match activePaneId with
  | Some a =>
      match find (fun entry => (fst entry =? a)%string) panes with
      | Some entry => Some (conversationId (snd entry))
      | None => None
      end
  | None => None
  end.

(** The panes of a view that are rendered as the active one. *)
Definition activePanes (activePaneId : option string) (v : PanesView)
  : list PaneProps :=
  match v with
  | StartPage => []
  | PaneRow ps => filter (fun p => isActivePane activePaneId (paneId p)) ps
  end.

End PaneView.

(** ** Layouts that depend on the text or on the scroll mode *)

Module LayoutScenario.

Import InputSizing.

(** The number of lines of a text: one more than its line breaks. *)
Definition lineCount (v : string) : Z :=
  Z.of_nat (List.length (split "010" v)).

(** A browser whose layout gives every line 24 pixels and adds 24 pixels
    of padding, whatever the inline style. *)
Definition lineBrowser (h : Z) (lh : string) (active : bool) : Browser :=
  mkBrowser h lh (fun textArea => 24 * lineCount (value textArea) + 24)
    active.


End LayoutScenario.

(** ** The configuration dropdown, lines 279-333 *)

Module Dropdown.

Import PaneInput.

Section ChatConfigDropdown.

Variable PresetId : Type.

(** [===] on the ids of configurations. *)
Variable PresetId_eqb : PresetId -> PresetId -> bool.

(** The fields of a chat configuration (from [../../db]) read here. *)
Record ChatConfig := mkChatConfig {
  id : PresetId;
  title : option string
}.

(** [chatConfigs?.find((p) => p.id === conversation.presetId)]; the list
    is [None] until the live query has loaded. *)
Definition currentChatConfig (chatConfigs : option (list ChatConfig))
    (conversation : Conversation PresetId) : option ChatConfig :=
  match chatConfigs with
  | None => None
  | Some cs =>
      find (fun p =>
              match presetId conversation with
              | Some q => PresetId_eqb (id p) q
              | None => false
              end) cs
  end.

(** The text of the trigger, line 291:
    [`Chat config: ${currentChatConfig?.title ?? "Default"}`]. *)
Definition triggerLabel (chatConfigs : option (list ChatConfig))
    (conversation : Conversation PresetId) : string :=
  ("Chat config: " ++
   match currentChatConfig chatConfigs conversation with
   | Some c => match title c with
               | Some t => t
               | None => "Default"
               end
   | None => "Default"
   end)%string.

(** What a menu item sets when clicked: nothing, ["default"], or the id of
    a configuration (the second argument of
    [db.setConversationChatConfigId(conversation.id, _)]). *)
Inductive Choice :=
| NoChoice
| DefaultChoice
| ConfigChoice (id : PresetId).

(** The items of the menu in order, lines 302-328: label and choice. *)
Definition menuItems (chatConfigs : option (list ChatConfig))
  : list (option string * Choice) :=
  (Some "Select chat config", NoChoice)
  :: (Some "Default chat", DefaultChoice)
  :: match chatConfigs with
     | None => []
     | Some cs => map (fun c => (title c, ConfigChoice (id c))) cs
     end.

End ChatConfigDropdown.

Arguments mkChatConfig {PresetId} id title.
Arguments id {PresetId} c.
Arguments title {PresetId} c.
Arguments currentChatConfig {PresetId} PresetId_eqb chatConfigs conversation.
Arguments triggerLabel {PresetId} PresetId_eqb chatConfigs conversation.
Arguments NoChoice {PresetId}.
Arguments DefaultChoice {PresetId}.
Arguments ConfigChoice {PresetId} id.
Arguments menuItems {PresetId} chatConfigs.

End Dropdown.

(** * Properties *)

Import PaneInput.
Import InputSizing.
Import Scenario.

Notation "x <- m ;; k" := (bind m (fun x => k))
  (at level 61, m at next level, right associativity).
Notation "m ;; k" := (bind m (fun _ => k))
  (at level 61, right associativity).

(** ** Splitting and joining *)

Lemma split_not_nil (sep : ascii) (s : string) : split sep s <> [].
Proof.
  destruct s as [|c s]; simpl; [discriminate|].
  destruct (Ascii.eqb c sep); [discriminate|].
  destruct (split sep s); discriminate.
Qed.

Lemma concat_cons (sep x : string) (xs : list string) :
  xs <> [] ->
  String.concat sep (x :: xs) = (x ++ sep ++ String.concat sep xs)%string.
Proof. destruct xs; [congruence | reflexivity]. Qed.

(** Joining the pieces of a split with the separator gives the string back. *)
Lemma join_split (sep : ascii) (s : string) :
  join (String sep EmptyString) (split sep s) = s.
Proof.
  unfold join. induction s as [|c s IH]; [reflexivity|].
  cbn [split]. destruct (Ascii.eqb c sep) eqn:E.
  - apply Ascii.eqb_eq in E. subst c.
    rewrite concat_cons by apply split_not_nil.
    rewrite IH. reflexivity.
  - pose proof (split_not_nil sep s) as Hne.
    destruct (split sep s) as [|p ps]; [congruence|].
    destruct ps as [|q ps].
    + cbn in IH |- *. now rewrite IH.
    + rewrite concat_cons in IH by discriminate.
      rewrite concat_cons by discriminate.
      rewrite <- IH. reflexivity.
Qed.

Lemma first_split (sep : ascii) (s : string) :
  first (split sep s) = beforeFirst sep s.
Proof.
  unfold first. induction s as [|c s IH]; [reflexivity|].
  cbn [split beforeFirst]. destruct (Ascii.eqb c sep); [reflexivity|].
  pose proof (split_not_nil sep s) as Hne.
  destruct (split sep s) as [|p ps]; [congruence|].
  cbn in IH |- *. now rewrite IH.
Qed.

Lemma rest_split (sep : ascii) (s : string) :
  join (String sep EmptyString) (slice1 (split sep s)) = afterFirst sep s.
Proof.
  unfold slice1. induction s as [|c s IH]; [reflexivity|].
  cbn [split afterFirst]. destruct (Ascii.eqb c sep).
  - cbn [tl]. apply join_split.
  - pose proof (split_not_nil sep s) as Hne.
    destruct (split sep s) as [|p ps]; [congruence|].
    cbn [tl] in IH |- *. exact IH.
Qed.

(** ** Trimming *)

Lemma trimEnd_empty (s : string) :
  trimEnd s = "" <-> allWhiteSpace s = true.
Proof.
  induction s as [|c s IH]; cbn [trimEnd allWhiteSpace]; [tauto|].
  destruct (trimEnd s) as [|d t].
  - assert (Hs : allWhiteSpace s = true) by now apply IH.
    rewrite Hs, andb_true_r.
    destruct (isWhiteSpace c); split; congruence.
  - assert (Hs : allWhiteSpace s <> true)
      by (intros H; apply IH in H; discriminate).
    apply not_true_is_false in Hs. rewrite Hs, andb_false_r.
    split; discriminate.
Qed.

Lemma trimStart_allWhiteSpace (s : string) :
  allWhiteSpace (trimStart s) = allWhiteSpace s.
Proof.
  induction s as [|c s IH]; [reflexivity|].
  cbn [trimStart]. destruct (isWhiteSpace c) eqn:E.
  - rewrite IH. cbn [allWhiteSpace]. now rewrite E.
  - reflexivity.
Qed.

(** A string is empty after trimming exactly when it is all white space. *)
Lemma trim_empty (s : string) : trim s = "" <-> allWhiteSpace s = true.
Proof.
  unfold trim. rewrite trimEnd_empty. now rewrite trimStart_allWhiteSpace.
Qed.

Lemma commandOf_beforeFirst (messageDraft : string) :
  commandOf messageDraft = toLowerCase (beforeFirst " " messageDraft).
Proof. unfold commandOf. now rewrite first_split. Qed.

Lemma contentOf_afterFirst (messageDraft : string) :
  contentOf messageDraft = afterFirst " " messageDraft.
Proof. unfold contentOf. apply rest_split. Qed.

Lemma startsWith_not_empty (s p : string) :
  p <> EmptyString -> startsWith s p = true -> s <> EmptyString.
Proof.
  intros Hp H ->. destruct p; [congruence | discriminate].
Qed.

(** ** The handler follows its parser *)

(** Runs the monadic operations of a handler on the world at hand. *)
Ltac run_async :=
  unfold perform, bind, ret, preventDefault, setMessageDraft, dispatch,
    setTimeout, addConversation, emit, settled; cbn.

Section HandlerFacts.

Variable PresetId : Type.
Implicit Types (props : PaneProps) (conversation : option (Conversation PresetId))
  (e : KeyboardEvent) (w : World PresetId).

Lemma isSubmission_fields e :
  isSubmission e = true ->
  (key e =? "Enter")%string = true /\ shiftKey e = false /\
  ctrlKey e = false /\ metaKey e = false /\ altKey e = false.
Proof.
  unfold isSubmission. intros H.
  repeat (apply andb_true_iff in H; destruct H as [H ?]).
  repeat match goal with
         | H : negb _ = true |- _ => apply negb_true_iff in H
         end.
  auto.
Qed.

(** On a submission event the handler performs the parse result of the
    draft. *)
Lemma onKeydown_perform props conversation messageDraft e :
  isSubmission e = true ->
  onKeydown props conversation messageDraft e
  = perform props conversation (parse messageDraft).
Proof.
  intros H. apply isSubmission_fields in H.
  destruct H as (Hk & Hs & Hc & Hm & Ha).
  unfold onKeydown, parse, commandOf, contentOf.
  rewrite Hk, Hs, Hc, Hm, Ha. cbn [andb negb].
  destruct (messageDraft =? "")%string; cbn [negb andb]; [reflexivity|].
  destruct (startsWith messageDraft "/"); [|reflexivity].
  destruct ((toLowerCase (first (split " " messageDraft)) =? "/newpane")%string
            && negb (trim (join " " (slice1 (split " " messageDraft))) =? "")%string);
    reflexivity.
Qed.

(** An event that is not a submission leaves everything as it is. *)
Lemma onKeydown_other props conversation messageDraft e w :
  isSubmission e = false ->
  onKeydown props conversation messageDraft e w = (Fulfilled tt, w).
Proof.
  unfold isSubmission, onKeydown. intros H.
  destruct (key e =? "Enter")%string, (messageDraft =? "")%string,
    (shiftKey e), (ctrlKey e), (metaKey e), (altKey e);
    cbn in H |- *; try reflexivity; discriminate.
Qed.

(** The effects of a plain message. *)
Lemma perform_plain props conversation text w :
  perform props conversation (PlainMessage text) w
  = (settled (dispatch_fulfils w
                (sendMessage (conversationId (pane props)) text)),
     {| draft := "";
        db_addConversation := db_addConversation w;
        dispatch_fulfils := dispatch_fulfils w;
        trace := trace w ++
          [PreventDefault; SetMessageDraft "";
           Dispatch (sendMessage (conversationId (pane props)) text) true] |}).
Proof. run_async. now rewrite <- !app_assoc. Qed.

(** The effects of [/newpane] when the store creates the conversation. *)
Lemma perform_newpane_created props conversation content w cid :
  db_addConversation w (presetIdOf conversation) = Some cid ->
  perform props conversation (NewPaneCommand content) w
  = (Fulfilled tt,
     {| draft := "";
        db_addConversation := db_addConversation w;
        dispatch_fulfils := dispatch_fulfils w;
        trace := trace w ++
          [PreventDefault; SetMessageDraft "";
           AddConversation (presetIdOf conversation);
           Dispatch (openConversation cid true) false;
           SetTimeout [sendMessage cid content] 100] |}).
Proof.
  intros H. run_async. rewrite H. cbn. now rewrite <- !app_assoc.
Qed.

(** The effects of [/newpane] when the store rejects. *)
Lemma perform_newpane_failed props conversation content w :
  db_addConversation w (presetIdOf conversation) = None ->
  perform props conversation (NewPaneCommand content) w
  = (Rejected,
     {| draft := "";
        db_addConversation := db_addConversation w;
        dispatch_fulfils := dispatch_fulfils w;
        trace := trace w ++
          [PreventDefault; SetMessageDraft "";
           AddConversation (presetIdOf conversation)] |}).
Proof.
  intros H. run_async. rewrite H. cbn. now rewrite <- !app_assoc.
Qed.

End HandlerFacts.

(** ** Claims on the key handler *)

(** C1 (the code departs from it). The claim asks that the content of
    [/newpane] be delivered on a readiness signal of the creation and never
    on a fixed delay. Submitting [/newpane hello] with a store that creates
    conversation 7: the handler awaits the store, dispatches
    [openConversation] without awaiting it, and leaves the delivery of
    ["hello"] to a timer of 100 milliseconds; it sends nothing itself. *)
Theorem newpane_delivery_on_fixed_timer :
  let r := onKeydown paneA None "/newpane hello" enterKey
             (before "/newpane hello" (storeCreates 7)) in
  fst r = Fulfilled tt
  /\ trace (snd r)
     = [PreventDefault; SetMessageDraft "";
        AddConversation None;
        Dispatch (openConversation 7 true) false;
        SetTimeout [sendMessage 7 "hello"] 100]
  /\ usesTimer (trace (snd r)) = true
  /\ messages (dispatched (trace (snd r))) = []
  /\ deferred (trace (snd r)) = [(100, [sendMessage 7 "hello"])].
Proof. cbv zeta. repeat split; reflexivity. Qed.

(** Every [/newpane] submission whose creation succeeds is delivered that
    way: by the timer of 100 milliseconds alone. *)
Lemma newpane_always_on_timer {PresetId : Type} (props : PaneProps)
    (conversation : option (Conversation PresetId))
    (messageDraft content : string) (e : KeyboardEvent)
    (w : World PresetId) (cid : ConversationId) :
  isSubmission e = true ->
  parse messageDraft = NewPaneCommand content ->
  db_addConversation w (presetIdOf conversation) = Some cid ->
  exists tr,
    trace (snd (onKeydown props conversation messageDraft e w))
    = (trace w ++ tr)%list
    /\ messages (dispatched tr) = []
    /\ deferred tr = [(100, [sendMessage cid content])].
Proof.
  intros He Hp Hdb.
  rewrite (onKeydown_perform _ props conversation messageDraft e He), Hp.
  rewrite (perform_newpane_created _ props conversation content w cid Hdb).
  eexists. cbn [snd trace]. split; [reflexivity|]. split; reflexivity.
Qed.

(** C2 (counterexample). With two spaces after the command the argument
    keeps the second one: it is [" hello world"], not ["hello world"]. *)
Lemma newpane_two_spaces_keeps_space :
  parse "/newpane  hello world" = NewPaneCommand " hello world"
  /\ parse "/newpane  hello world" <> NewPaneCommand "hello world".
Proof. split; [reflexivity | discriminate]. Qed.

(** C2 (amended). A draft that starts with [/] is cut at its first space
    character: the command is the part before it, in lower case, and the
    argument is the part after it, unchanged, further spaces included. The
    result is [NewPaneCommand argument] when the command is [/newpane] and
    the argument has a character that is not white space, and the plain
    message otherwise; [/newpane  hello world] gives the argument
    [" hello world"], and [/NEWPANE hi] is the command [/newpane]. *)
Theorem slash_draft_cut_at_first_space (messageDraft : string) :
  startsWith messageDraft "/" = true ->
  commandOf messageDraft = toLowerCase (beforeFirst " " messageDraft)
  /\ contentOf messageDraft = afterFirst " " messageDraft
  /\ parse messageDraft
     = (if (toLowerCase (beforeFirst " " messageDraft) =? "/newpane")%string
           && negb (trim (afterFirst " " messageDraft) =? "")%string
        then NewPaneCommand (afterFirst " " messageDraft)
        else PlainMessage messageDraft)
  /\ parse "/newpane  hello world" = NewPaneCommand " hello world"
  /\ parse "/NEWPANE hi" = NewPaneCommand "hi".
Proof.
  intros Hs.
  assert (Hne : messageDraft <> "")
    by (apply (startsWith_not_empty messageDraft "/"); [discriminate | exact Hs]).
  apply String.eqb_neq in Hne.
  repeat split; try reflexivity.
  - apply commandOf_beforeFirst.
  - apply contentOf_afterFirst.
  - unfold parse. rewrite Hne, Hs.
    now rewrite commandOf_beforeFirst, contentOf_afterFirst.
Qed.

Lemma slash_draft_cut_at_first_space_witness :
  startsWith "/newpane  a b" "/" = true
  /\ commandOf "/newpane  a b" = "/newpane"
  /\ contentOf "/newpane  a b" = " a b".
Proof.
  split; [reflexivity|].
  destruct (slash_draft_cut_at_first_space "/newpane  a b" eq_refl)
    as (Hc & Ha & _).
  split; [exact Hc | exact Ha].
Defined.



(** C7. A draft that starts with [/] and whose command is not [/newpane],
    or whose argument is empty after trimming, parses to the plain message
    with the draft itself as body, and the handler sends exactly that,
    settling as the send does;
    [/unknowncmd foo], [/newpane] and [/newpane] followed by three spaces
    all fall back to the plain message with their text unchanged. *)
Theorem slash_fallback_is_plain {PresetId : Type} (props : PaneProps)
    (conversation : option (Conversation PresetId)) (messageDraft : string)
    (e : KeyboardEvent) (w : World PresetId) :
  startsWith messageDraft "/" = true ->
  commandOf messageDraft <> "/newpane"
    \/ trim (contentOf messageDraft) = "" ->
  isSubmission e = true ->
  parse messageDraft = PlainMessage messageDraft
  /\ onKeydown props conversation messageDraft e w
     = (settled (dispatch_fulfils w
                   (sendMessage (conversationId (pane props)) messageDraft)),
        {| draft := "";
           db_addConversation := db_addConversation w;
           dispatch_fulfils := dispatch_fulfils w;
           trace := trace w ++
             [PreventDefault; SetMessageDraft "";
              Dispatch (sendMessage (conversationId (pane props))
                          messageDraft) true] |})
  /\ parse "/unknowncmd foo" = PlainMessage "/unknowncmd foo"
  /\ parse "/newpane" = PlainMessage "/newpane"
  /\ parse "/newpane   " = PlainMessage "/newpane   ".
Proof.
  intros Hs Hfb He.
  assert (Hne : messageDraft <> "")
    by (apply (startsWith_not_empty messageDraft "/"); [discriminate | exact Hs]).
  apply String.eqb_neq in Hne.
  assert (Hp : parse messageDraft = PlainMessage messageDraft).
  { unfold parse. rewrite Hne, Hs.
    destruct Hfb as [Hc | Ht].
    - apply String.eqb_neq in Hc. now rewrite Hc.
    - rewrite Ht. cbn. now rewrite andb_false_r. }
  split; [exact Hp|]. split; [|repeat split; reflexivity].
  rewrite (onKeydown_perform _ props conversation messageDraft e He), Hp.
  apply perform_plain.
Qed.

Lemma slash_fallback_is_plain_witness :
  startsWith "/unknowncmd foo" "/" = true
  /\ (commandOf "/unknowncmd foo" <> "/newpane"
      \/ trim (contentOf "/unknowncmd foo") = "")
  /\ isSubmission enterKey = true
  /\ onKeydown paneA None "/unknowncmd foo" enterKey
       (before "/unknowncmd foo" storeFails)
     = (Fulfilled tt,
        {| draft := "";
           db_addConversation := storeFails;
           dispatch_fulfils := sendsFulfil;
           trace := [PreventDefault; SetMessageDraft "";
                     Dispatch (sendMessage 3 "/unknowncmd foo") true] |}).
Proof.
  assert (Hc : commandOf "/unknowncmd foo" <> "/newpane")
    by (apply String.eqb_neq; reflexivity).
  split; [reflexivity|]. split; [left; exact Hc|]. split; [reflexivity|].
  exact (proj1 (proj2
    (slash_fallback_is_plain paneA None "/unknowncmd foo" enterKey
       (before "/unknowncmd foo" storeFails)
       eq_refl (or_introl Hc) eq_refl))).
Defined.

(** C8 (counterexample). Submitting [/newpane hello] with a store that
    fails: the handler rejects after the store call and does nothing more.
    The draft is already cleared, ["hello"] is in no message, sent or
    deferred, and no effect follows the failure that could report it. *)
Lemma newpane_failure_drops_content :
  let r := onKeydown paneA None "/newpane hello" enterKey
             (before "/newpane hello" storeFails) in
  fst r = Rejected
  /\ draft (snd r) = ""
  /\ trace (snd r)
     = [PreventDefault; SetMessageDraft ""; AddConversation None]
  /\ allMessages (trace (snd r)) = []
  /\ afterCreation (trace (snd r)) = [].
Proof. cbv zeta. repeat split; reflexivity. Qed.

(** C8 (amended). When the creation of the conversation fails during
    [/newpane], no pane is opened and the content is not sent, neither at
    once nor by a timer; the draft has been cleared before the store call,
    the handler stops at the failure with a rejected promise, and no
    further effect follows. *)
Theorem newpane_failure_stops_handler {PresetId : Type} (props : PaneProps)
    (conversation : option (Conversation PresetId))
    (messageDraft content : string) (e : KeyboardEvent)
    (w : World PresetId) :
  isSubmission e = true ->
  parse messageDraft = NewPaneCommand content ->
  db_addConversation w (presetIdOf conversation) = None ->
  onKeydown props conversation messageDraft e w
  = (Rejected,
     {| draft := "";
        db_addConversation := db_addConversation w;
        dispatch_fulfils := dispatch_fulfils w;
        trace := trace w ++
          [PreventDefault; SetMessageDraft "";
           AddConversation (presetIdOf conversation)] |})
  /\ opened (dispatched
       [PreventDefault; SetMessageDraft "";
        AddConversation (presetIdOf conversation)]) = []
  /\ allMessages
       [PreventDefault; SetMessageDraft "";
        AddConversation (presetIdOf conversation)] = []
  /\ afterCreation
       [PreventDefault; SetMessageDraft "";
        AddConversation (presetIdOf conversation)] = [].
Proof.
  intros He Hp Hdb. split; [|repeat split; reflexivity].
  rewrite (onKeydown_perform _ props conversation messageDraft e He), Hp.
  now apply perform_newpane_failed.
Qed.

Lemma newpane_failure_stops_handler_witness :
  isSubmission enterKey = true
  /\ parse "/newpane buy milk" = NewPaneCommand "buy milk"
  /\ storeFails (presetIdOf None) = None
  /\ onKeydown paneA None "/newpane buy milk" enterKey
       (before "/newpane buy milk" storeFails)
     = (Rejected,
        {| draft := "";
           db_addConversation := storeFails;
           dispatch_fulfils := sendsFulfil;
           trace := [PreventDefault; SetMessageDraft "";
                     AddConversation None] |}).
Proof.
  split; [reflexivity|]. split; [reflexivity|]. split; [reflexivity|].
  exact (proj1
    (newpane_failure_stops_handler paneA None "/newpane buy milk" "buy milk"
       enterKey (before "/newpane buy milk" storeFails)
       eq_refl eq_refl eq_refl)).
Defined.

(** ** Arithmetic of the sizing rule *)

(** [Math.ceil(c / l) * l] in integer division. *)
Lemma roundedHeight_div (c l : Z) : roundedHeight c l = - (- c / l) * l.
Proof.
  unfold roundedHeight, Qceiling. f_equal. f_equal.
  rewrite Zdiv_Qdiv. apply Qfloor_comp.
  rewrite inject_Z_opp. unfold Qdiv. ring.
Qed.

(** For a positive line height the rounded height is the least multiple of
    the line height that is not below the content height. *)
Lemma roundedHeight_bounds (c l : Z) :
  0 < l ->
  (l | roundedHeight c l)
  /\ c <= roundedHeight c l < c + l.
Proof.
  intros Hl. rewrite roundedHeight_div. split.
  - exists (- (- c / l)). reflexivity.
  - pose proof (Z.div_mod (- c) l ltac:(lia)) as Hd.
    pose proof (Z.mod_pos_bound (- c) l Hl) as Hm.
    nia.
Qed.

Lemma roundedHeight_least (c l m : Z) :
  0 < l -> (l | m) -> c <= m -> roundedHeight c l <= m.
Proof.
  intros Hl [k ->] Hc.
  destruct (roundedHeight_bounds c l Hl) as [[j Hj] Hb].
  rewrite Hj in *.
  destruct (Z.le_gt_cases j k) as [Hjk | Hjk].
  - apply Z.mul_le_mono_nonneg_r; lia.
  - assert ((k + 1) * l <= j * l)
      by (apply Z.mul_le_mono_nonneg_r; lia).
    lia.
Qed.

(** [contentHeight > innerHeight / 2.5] on integers. *)
Lemma Qgtb_maxSize (c h : Z) :
  Qgtb (inject_Z c) (inject_Z h / 2.5)%Q = (2 * h <? 5 * c).
Proof.
  unfold Qgtb.
  destruct (Qle_bool (inject_Z c) (inject_Z h / 2.5)%Q) eqn:E; cbn [negb];
    symmetry.
  - apply Qle_bool_iff in E. unfold Qle in E. cbn in E.
    apply Z.ltb_ge. lia.
  - apply Z.ltb_lt.
    destruct (Z.lt_ge_cases (2 * h) (5 * c)) as [|Hge]; [assumption|].
    assert (H : Qle_bool (inject_Z c) (inject_Z h / 2.5)%Q = true)
      by (apply Qle_bool_iff; unfold Qle; cbn; lia).
    congruence.
Qed.

Lemma isMaxSize_spec (b : Browser) (textArea : TextArea) :
  isMaxSize b textArea
  = (2 * innerHeight b <? 5 * contentHeight b textArea).
Proof. unfold isMaxSize, maxSize. apply Qgtb_maxSize. Qed.

(** The fallback never leaves a zero line height. *)
Lemma orElse_nonzero (x : option Z) (d : Z) : d <> 0 -> orElse x d <> 0.
Proof. intros Hd. destruct x as [[| |]|]; cbn; lia. Qed.

Lemma lineHeight_nonzero (b : Browser) : lineHeight b <> 0.
Proof. apply orElse_nonzero. lia. Qed.

(** A line height that parses to no negative number is positive after the
    fallback. *)
Lemma lineHeight_positive (b : Browser) :
  (forall n, parseInt (computedLineHeight b) = Some n -> 0 <= n) ->
  0 < lineHeight b.
Proof.
  unfold lineHeight. intros H.
  destruct (parseInt (computedLineHeight b)) as [n|]; cbn; [|lia].
  specialize (H n eq_refl). destruct n; cbn; lia.
Qed.

(** ** The effect implements the sizing rule *)

Lemma useLayoutEffect_sized (b : Browser) (textArea : TextArea) :
  useLayoutEffect b (Some textArea)
  = Some
      (let sized :=
         {| value := value textArea;
            style := sizedStyle b (naturalHeight b textArea);
            scrollTop := scrollTop textArea |} in
       if isActiveElement b
       then setScrollTop (scrollHeight b sized) sized
       else sized).
Proof.
  unfold useLayoutEffect, sizedStyle, maxSize, lineHeight, minHeight,
    roundedHeight, naturalHeight.
  destruct (Qgtb _ _); destruct (isActiveElement b); reflexivity.
Qed.

Lemma sizing_sized (b : Browser) (textArea : TextArea) :
  sizing b textArea = Some (sizedStyle b (naturalHeight b textArea)).
Proof.
  unfold sizing. rewrite useLayoutEffect_sized. cbv zeta.
  destruct (isActiveElement b); reflexivity.
Qed.


Lemma sizing_unclamped (b : Browser) (textArea : TextArea) :
  isMaxSize b textArea = false ->
  sizing b textArea
  = Some {| height := Some (PxHeight (inject_Z
                       (roundedHeight (contentHeight b textArea)
                                      (lineHeight b))));
            overflowY := Some OverflowHidden;
            transition := Some TransitionNone |}.
Proof.
  intros H. rewrite sizing_sized. unfold sizedStyle.
  unfold isMaxSize, contentHeight in H. now rewrite H.
Qed.

Lemma sizing_clamped (b : Browser) (textArea : TextArea) :
  isMaxSize b textArea = true ->
  sizing b textArea
  = Some {| height := Some (PxHeight (maxSize b));
            overflowY := Some OverflowAuto;
            transition := Some TransitionHeightEaseOut |}.
Proof.
  intros H. rewrite sizing_sized. unfold sizedStyle.
  unfold isMaxSize, contentHeight in H. now rewrite H.
Qed.

(** ** Claims on the sizing computation *)

(** C3 (counterexample). An empty draft measured at 48 pixels, below the
    minimum of 55: with the line height of 24 pixels in a window of 1000
    the height is 72, not 55; in a window of 100 the height is clamped to
    [100 / 2.5] and scrolling is on. *)
Lemma empty_draft_height_not_55 :
  sizing (browser 1000 "24px" 48 false) (freshTextArea "")
  = Some {| height := Some (PxHeight (inject_Z 72));
            overflowY := Some OverflowHidden;
            transition := Some TransitionNone |}
  /\ ~ (inject_Z 72 == inject_Z 55)%Q
  /\ sizing (browser 100 "24px" 48 false) (freshTextArea "")
     = Some {| height := Some (PxHeight (inject_Z 100 / 2.5)%Q);
               overflowY := Some OverflowAuto;
               transition := Some TransitionHeightEaseOut |}.
Proof. repeat split; try reflexivity. intros H. discriminate H. Qed.

(** C3 (amended). For a draft whose natural content height is at most the
    minimum of 55 pixels, in a window with [55 <= innerHeight / 2.5] and
    with a positive line height, the height is the least multiple of the
    line height that is at least 55 (so 55 itself exactly when the line
    height divides 55), internal scrolling is off and no transition is
    set. *)
Theorem small_draft_height (b : Browser) (textArea : TextArea) :
  naturalHeight b textArea <= 55 ->
  (inject_Z 55 <= maxSize b)%Q ->
  0 < lineHeight b ->
  exists h : Z,
    sizing b textArea
    = Some {| height := Some (PxHeight (inject_Z h));
              overflowY := Some OverflowHidden;
              transition := Some TransitionNone |}
    /\ (lineHeight b | h)
    /\ 55 <= h < 55 + lineHeight b
    /\ (forall m, (lineHeight b | m) -> 55 <= m -> h <= m)
    /\ (h = 55 <-> (lineHeight b | 55)).
Proof.
  intros Hn Hmax Hl.
  assert (Hc : contentHeight b textArea = 55)
    by (unfold contentHeight, minHeight; lia).
  assert (Hm : isMaxSize b textArea = false).
  { unfold isMaxSize, Qgtb. rewrite Hc.
    apply negb_false_iff, Qle_bool_iff. exact Hmax. }
  exists (roundedHeight 55 (lineHeight b)).
  destruct (roundedHeight_bounds 55 (lineHeight b) Hl) as [Hdiv Hb].
  split; [rewrite (sizing_unclamped b textArea Hm), Hc; reflexivity|].
  split; [exact Hdiv|]. split; [exact Hb|]. split.
  - intros m Hd Hle. now apply roundedHeight_least.
  - split.
    + intros Heq. now rewrite <- Heq.
    + intros Hd. pose proof (roundedHeight_least 55 _ 55 Hl Hd ltac:(lia)).
      lia.
Qed.

Lemma small_draft_height_witness :
  naturalHeight (browser 1000 "24px" 48 false) (freshTextArea "") <= 55
  /\ (inject_Z 55 <= maxSize (browser 1000 "24px" 48 false))%Q
  /\ 0 < lineHeight (browser 1000 "24px" 48 false)
  /\ exists h : Z,
       sizing (browser 1000 "24px" 48 false) (freshTextArea "")
       = Some {| height := Some (PxHeight (inject_Z h));
                 overflowY := Some OverflowHidden;
                 transition := Some TransitionNone |}
       /\ 55 <= h < 55 + 24.
Proof.
  assert (H1 : naturalHeight (browser 1000 "24px" 48 false)
                 (freshTextArea "") <= 55)
    by (cbn; lia).
  assert (H2 : (inject_Z 55 <= maxSize (browser 1000 "24px" 48 false))%Q)
    by (apply Qle_bool_iff; reflexivity).
  assert (H3 : 0 < lineHeight (browser 1000 "24px" 48 false))
    by reflexivity.
  split; [exact H1|]. split; [exact H2|]. split; [exact H3|].
  destruct (small_draft_height (browser 1000 "24px" 48 false)
              (freshTextArea "") H1 H2 H3) as (h & Hs & _ & Hb & _).
  exists h. split; [exact Hs | exact Hb].
Defined.

(** C4 (counterexample). Line height 20 and a natural content height of
    61, which is [55 + 0.3 * 20]: the height is 80, the next multiple of 20,
    not [55 + 20 = 75]. *)
Lemma height_61_rounds_to_80 :
  (inject_Z 61 == inject_Z 55 + 0.3 * inject_Z 20)%Q
  /\ isMaxSize (browser 1000 "20px" 61 false) (freshTextArea "abc") = false
  /\ sizing (browser 1000 "20px" 61 false) (freshTextArea "abc")
     = Some {| height := Some (PxHeight (inject_Z 80));
               overflowY := Some OverflowHidden;
               transition := Some TransitionNone |}
  /\ ~ (inject_Z 80 == inject_Z 55 + 1 * inject_Z 20)%Q.
Proof. repeat split; try reflexivity. intros H. discriminate H. Qed.

(** C4 (amended). In the branch that does not clamp, with a positive line
    height, the height is the target rounded up to the least multiple of
    the line height that is not below it, counted from zero and not from
    the minimum height; scrolling is off and no transition is set. A
    natural content height of 61 with line height 20 gives 80. *)
Theorem unclamped_height_rounds_up (b : Browser) (textArea : TextArea) :
  isMaxSize b textArea = false ->
  0 < lineHeight b ->
  exists h : Z,
    sizing b textArea
    = Some {| height := Some (PxHeight (inject_Z h));
              overflowY := Some OverflowHidden;
              transition := Some TransitionNone |}
    /\ (lineHeight b | h)
    /\ contentHeight b textArea <= h < contentHeight b textArea + lineHeight b
    /\ (forall m, (lineHeight b | m) -> contentHeight b textArea <= m -> h <= m)
    /\ sizing (browser 1000 "20px" 61 false) (freshTextArea "abc")
       = Some {| height := Some (PxHeight (inject_Z 80));
                 overflowY := Some OverflowHidden;
                 transition := Some TransitionNone |}.
Proof.
  intros Hm Hl.
  exists (roundedHeight (contentHeight b textArea) (lineHeight b)).
  destruct (roundedHeight_bounds (contentHeight b textArea) (lineHeight b) Hl)
    as [Hdiv Hb].
  split; [exact (sizing_unclamped b textArea Hm)|].
  split; [exact Hdiv|]. split; [exact Hb|]. split; [|reflexivity].
  intros m Hd Hle. now apply roundedHeight_least.
Qed.

Lemma unclamped_height_rounds_up_witness :
  isMaxSize (browser 1000 "20px" 61 false) (freshTextArea "abc") = false
  /\ 0 < lineHeight (browser 1000 "20px" 61 false)
  /\ exists h : Z,
       sizing (browser 1000 "20px" 61 false) (freshTextArea "abc")
       = Some {| height := Some (PxHeight (inject_Z h));
                 overflowY := Some OverflowHidden;
                 transition := Some TransitionNone |}
       /\ (20 | h) /\ 61 <= h < 61 + 20.
Proof.
  split; [reflexivity|]. split; [reflexivity|].
  destruct (unclamped_height_rounds_up (browser 1000 "20px" 61 false)
              (freshTextArea "abc") eq_refl eq_refl)
    as (h & Hs & Hd & Hb & _).
  exists h. split; [exact Hs|]. split; [exact Hd | exact Hb].
Defined.

(** With an integer measurement the height of the example in the claim is
    never the minimum plus one line: a natural content height of
    [55 + 0.3 * lineHeight] never rounds to [55 + lineHeight]. *)
Lemma never_min_plus_one_line (b : Browser) (textArea : TextArea) :
  0 < lineHeight b ->
  10 * (contentHeight b textArea - 55) = 3 * lineHeight b ->
  roundedHeight (contentHeight b textArea) (lineHeight b)
  <> 55 + lineHeight b.
Proof.
  intros Hl Hc Heq.
  destruct (roundedHeight_bounds (contentHeight b textArea) (lineHeight b) Hl)
    as [[k Hk] _].
  rewrite Heq in Hk.
  set (l := lineHeight b) in *. set (c := contentHeight b textArea) in *.
  assert (H3 : 10 * ((k - 1) * (c - 55)) = 3 * 55) by nia.
  lia.
Qed.



(** C10 (counterexample). With no window height ([innerHeight = 0]) and a
    line height of ["normal"], the fallback of 20 applies, the minimum 55
    exceeds the limit [0 / 2.5] and the height is clamped to it: 0 pixels,
    not a positive value. *)
Lemma zero_viewport_height_is_zero :
  lineHeight (browser 0 "normal" 48 false) = 20
  /\ sizing (browser 0 "normal" 48 false) (freshTextArea "")
     = Some {| height := Some (PxHeight (inject_Z 0 / 2.5)%Q);
               overflowY := Some OverflowAuto;
               transition := Some TransitionHeightEaseOut |}
  /\ (inject_Z 0 / 2.5 == 0)%Q
  /\ ~ (0 < inject_Z 0 / 2.5)%Q.
Proof. repeat split; try reflexivity. intros H. discriminate H. Qed.

(** C10 (amended). When the computed line height does not parse ([NaN]) or
    parses to zero, the line height used is the fallback of 20 pixels. The
    divisor of the round-up is therefore positive (in no case is the line
    height zero), and in the branch that does not clamp the height is a
    whole number of pixels, a multiple of 20 that is at least 55. In the
    clamped branch the height is [innerHeight / 2.5], which is positive
    exactly when the window height is. *)
Theorem lineHeight_fallback_20 (b : Browser) (textArea : TextArea) :
  parseInt (computedLineHeight b) = None
    \/ parseInt (computedLineHeight b) = Some 0 ->
  lineHeight b = 20
  /\ 0 < lineHeight b
  /\ (forall b' : Browser, lineHeight b' <> 0)
  /\ (isMaxSize b textArea = false ->
      exists h : Z,
        sizing b textArea
        = Some {| height := Some (PxHeight (inject_Z h));
                  overflowY := Some OverflowHidden;
                  transition := Some TransitionNone |}
        /\ h = roundedHeight (contentHeight b textArea) 20
        /\ (20 | h)
        /\ 55 <= h)
  /\ (isMaxSize b textArea = true ->
      sizing b textArea
      = Some {| height := Some (PxHeight (maxSize b));
                overflowY := Some OverflowAuto;
                transition := Some TransitionHeightEaseOut |}
      /\ ((0 < maxSize b)%Q <-> 0 < innerHeight b)).
Proof.
  intros Hp.
  assert (Hl : lineHeight b = 20)
    by (unfold lineHeight; destruct Hp as [-> | ->]; reflexivity).
  split; [exact Hl|]. split; [lia|]. split; [exact lineHeight_nonzero|].
  split.
  - intros Hm. exists (roundedHeight (contentHeight b textArea) 20).
    destruct (roundedHeight_bounds (contentHeight b textArea) 20 ltac:(lia))
      as [Hdiv Hb].
    split; [rewrite (sizing_unclamped b textArea Hm), Hl; reflexivity|].
    split; [reflexivity|]. split; [exact Hdiv|].
    unfold contentHeight, minHeight in *. lia.
  - intros Hm. split; [exact (sizing_clamped b textArea Hm)|].
    unfold maxSize, Qlt. cbn. lia.
Qed.

Lemma lineHeight_fallback_20_witness :
  (parseInt (computedLineHeight (browser 1000 "normal" 48 false)) = None
   \/ parseInt (computedLineHeight (browser 1000 "normal" 48 false)) = Some 0)
  /\ lineHeight (browser 1000 "normal" 48 false) = 20
  /\ lineHeight (browser 1000 "0px" 48 false) = 20
  /\ sizing (browser 1000 "normal" 48 false) (freshTextArea "")
     = Some {| height := Some (PxHeight (inject_Z 60));
               overflowY := Some OverflowHidden;
               transition := Some TransitionNone |}.
Proof.
  split; [left; reflexivity|].
  split; [exact (proj1 (lineHeight_fallback_20
                          (browser 1000 "normal" 48 false) (freshTextArea "")
                          (or_introl eq_refl)))|].
  split; [exact (proj1 (lineHeight_fallback_20
                          (browser 1000 "0px" 48 false) (freshTextArea "")
                          (or_intror eq_refl)))|].
  reflexivity.
Defined.

(** ** Checks of the string functions on the inputs of the claims *)

Example split_two_spaces :
  split " " "/newpane  hello world" = ["/newpane"; ""; "hello"; "world"].
Proof. reflexivity. Qed.

Example parseInt_samples :
  parseInt "24px" = Some 24 /\ parseInt "19.2px" = Some 19
  /\ parseInt "normal" = None /\ parseInt "0px" = Some 0
  /\ parseInt "  +7" = Some 7 /\ parseInt "0x1f" = Some 31.
Proof. repeat split; reflexivity. Qed.

Example trim_samples :
  trim "  a b  " = "a b" /\ trim "   " = "" /\ trim "" = "".
Proof. repeat split; reflexivity. Qed.

Example toLowerCase_sample : toLowerCase "/NewPane" = "/newpane".
Proof. reflexivity. Qed.

(** * Further properties of the component *)

Import PaneView.

(** ** The key handler on every event *)

Lemma isSubmission_false_iff (e : KeyboardEvent) :
  isSubmission e = false <->
  (key e <> "Enter" \/ shiftKey e = true \/ ctrlKey e = true
   \/ metaKey e = true \/ altKey e = true).
Proof.
  unfold isSubmission.
  destruct (String.eqb_spec (key e) "Enter") as [Hk | Hk];
    destruct (shiftKey e), (ctrlKey e), (metaKey e), (altKey e); cbn;
    split; intros H; try discriminate; try reflexivity; auto 10;
    destruct H as [H | [H | [H | [H | H]]]]; congruence.
Qed.

(** X1. A key other than Enter, or Enter with Shift, Ctrl, Meta or Alt
    held, is not handled: whatever the draft, the handler dispatches
    nothing, does not clear the draft and does not prevent the default
    action of the key. *)
Theorem modified_key_is_not_handled {PresetId : Type} (props : PaneProps)
    (conversation : option (Conversation PresetId)) (messageDraft : string)
    (e : KeyboardEvent) (w : World PresetId) :
  key e <> "Enter" \/ shiftKey e = true \/ ctrlKey e = true
    \/ metaKey e = true \/ altKey e = true ->
  onKeydown props conversation messageDraft e w = (Fulfilled tt, w).
Proof.
  intros H. apply onKeydown_other. now apply isSubmission_false_iff.
Qed.

Lemma modified_key_is_not_handled_witness :
  onKeydown paneA None "hello"
    (mkKeyboardEvent "Enter" true false false false)
    (before "hello" storeFails)
  = (Fulfilled tt, before "hello" storeFails).
Proof.
  exact (modified_key_is_not_handled paneA None "hello"
           (mkKeyboardEvent "Enter" true false false false)
           (before "hello" storeFails) (or_intror (or_introl eq_refl))).
Defined.

(** What one call of the handler can do, as a list of new effects. *)
Lemma onKeydown_cases {PresetId : Type} (props : PaneProps)
    (conversation : option (Conversation PresetId)) (messageDraft : string)
    (e : KeyboardEvent) (w : World PresetId) :
  onKeydown props conversation messageDraft e w = (Fulfilled tt, w)
  \/ exists (c : Completion unit) (tr : list (Effect PresetId)),
       onKeydown props conversation messageDraft e w
       = (c, {| draft := "";
                db_addConversation := db_addConversation w;
                dispatch_fulfils := dispatch_fulfils w;
                trace := trace w ++ PreventDefault :: SetMessageDraft "" :: tr |})
       /\ (tr = [Dispatch (sendMessage (conversationId (pane props))
                             messageDraft) true]
           \/ (exists cid,
                 tr = [AddConversation (presetIdOf conversation);
                       Dispatch (openConversation cid true) false;
                       SetTimeout [sendMessage cid (contentOf messageDraft)] 100])
           \/ tr = [AddConversation (presetIdOf conversation)]).
Proof.
  destruct (isSubmission e) eqn:He;
    [|left; now apply onKeydown_other].
  rewrite (onKeydown_perform _ props conversation messageDraft e He).
  assert (Hc : forall c, parse messageDraft = NewPaneCommand c ->
                         c = contentOf messageDraft).
  { unfold parse. intros c.
    repeat match goal with
           | |- context [if ?b then _ else _] => destruct b
           end; congruence. }
  assert (Hplain : forall t, parse messageDraft = PlainMessage t ->
                             t = messageDraft).
  { unfold parse. intros t.
    repeat match goal with
           | |- context [if ?b then _ else _] => destruct b
           end; congruence. }
  destruct (parse messageDraft) as [|t|c] eqn:Hp.
  - left. reflexivity.
  - right. rewrite perform_plain. rewrite (Hplain t eq_refl).
    do 2 eexists. split; [reflexivity|]. left. reflexivity.
  - right. rewrite (Hc c eq_refl).
    destruct (db_addConversation w (presetIdOf conversation)) as [cid|] eqn:Hdb.
    + rewrite (perform_newpane_created _ props conversation _ w cid Hdb).
      do 2 eexists. split; [reflexivity|]. right. left. now exists cid.
    + rewrite (perform_newpane_failed _ props conversation _ w Hdb).
      do 2 eexists. split; [reflexivity|]. right. right. reflexivity.
Qed.

(** X2. Whatever the event, the draft and the store, one call of the
    handler either does nothing at all, or prevents the default action and
    clears the draft first; it only appends to what was done before, opens
    at most one pane and sends at most one message, at once or by
    timer. *)
Theorem handler_acts_at_most_once {PresetId : Type} (props : PaneProps)
    (conversation : option (Conversation PresetId)) (messageDraft : string)
    (e : KeyboardEvent) (w : World PresetId) :
  exists tr : list (Effect PresetId),
    trace (snd (onKeydown props conversation messageDraft e w))
    = (trace w ++ tr)%list
    /\ (tr = [] /\ onKeydown props conversation messageDraft e w
                  = (Fulfilled tt, w)
        \/ (exists tr', tr = PreventDefault :: SetMessageDraft "" :: tr')
           /\ draft (snd (onKeydown props conversation messageDraft e w)) = "")
    /\ (List.length (allMessages tr) <= 1)%nat
    /\ (List.length (opened (dispatched tr)) <= 1)%nat.
Proof.
  destruct (onKeydown_cases props conversation messageDraft e w)
    as [H | (c & tr & H & Htr)].
  - exists []. rewrite H. cbn [snd]. rewrite app_nil_r.
    split; [reflexivity|]. split; [left; split; reflexivity|].
    split; cbn; lia.
  - exists (PreventDefault :: SetMessageDraft "" :: tr).
    rewrite H. cbn [snd trace draft].
    split; [reflexivity|]. split; [right; split; [now exists tr | reflexivity]|].
    destruct Htr as [-> | [[cid ->] | ->]]; split; cbn; lia.
Qed.



(** X4. A [/newpane] submission whose conversation is created asks the
    store once, with the preset of the conversation of the invoking pane
    (none while that conversation is not loaded), opens exactly one pane,
    in new-pane mode, for the id the store returned, and addresses exactly
    one message, the content, to that id; unless the store returns the id
    of the invoking pane's own conversation, that conversation receives
    nothing. *)
Theorem newpane_targets_created_conversation {PresetId : Type}
    (props : PaneProps) (conversation : option (Conversation PresetId))
    (messageDraft content : string) (e : KeyboardEvent)
    (w : World PresetId) (cid : ConversationId) :
  isSubmission e = true ->
  parse messageDraft = NewPaneCommand content ->
  db_addConversation w (presetIdOf conversation) = Some cid ->
  exists tr : list (Effect PresetId),
    onKeydown props conversation messageDraft e w
    = (Fulfilled tt,
       {| draft := "";
          db_addConversation := db_addConversation w;
          dispatch_fulfils := dispatch_fulfils w;
          trace := trace w ++ tr |})
    /\ filter (fun ev => match ev with AddConversation _ => true | _ => false end)
         tr = [AddConversation (presetIdOf conversation)]
    /\ dispatched tr = [openConversation cid true]
    /\ allMessages tr = [(cid, content)]
    /\ (cid <> conversationId (pane props) ->
        ~ In (conversationId (pane props)) (map fst (allMessages tr))).
Proof.
  intros He Hp Hdb.
  rewrite (onKeydown_perform _ props conversation messageDraft e He), Hp.
  rewrite (perform_newpane_created _ props conversation content w cid Hdb).
  eexists. split; [reflexivity|]. cbn.
  repeat split; try reflexivity.
  intros Hne [H | []]. congruence.
Qed.

Lemma newpane_targets_created_conversation_witness :
  isSubmission enterKey = true
  /\ parse "/newpane buy milk" = NewPaneCommand "buy milk"
  /\ exists tr : list (Effect string),
       trace (snd (onKeydown paneA
                     (Some (mkConversation string 3 None (Some "gpt")))
                     "/newpane buy milk" enterKey
                     (before "/newpane buy milk" (storeCreates 8))))
       = tr
       /\ allMessages tr = [(8, "buy milk")].
Proof.
  split; [reflexivity|]. split; [reflexivity|].
  destruct (newpane_targets_created_conversation paneA
              (Some (mkConversation string 3 None (Some "gpt")))
              "/newpane buy milk" "buy milk" enterKey
              (before "/newpane buy milk" (storeCreates 8)) 8
              eq_refl eq_refl eq_refl) as (tr & Hr & _ & _ & Hm & _).
  exists tr. rewrite Hr. split; [reflexivity | exact Hm].
Defined.

(** ** The command line *)

Lemma lowerChar_space (c : ascii) :
  Ascii.eqb (lowerChar c) " " = Ascii.eqb c " ".
Proof.
  destruct c as [[] [] [] [] [] [] [] []]; reflexivity.
Qed.

Lemma lowerChar_slash (c : ascii) :
  Ascii.eqb (lowerChar c) "/" = Ascii.eqb c "/".
Proof.
  destruct c as [[] [] [] [] [] [] [] []]; reflexivity.
Qed.

Lemma contains_toLowerCase (s : string) :
  contains " " (toLowerCase s) = contains " " s.
Proof.
  induction s as [|c s IH]; [reflexivity|].
  cbn [toLowerCase contains]. now rewrite lowerChar_space, IH.
Qed.

Lemma startsWith_toLowerCase (s : string) :
  startsWith (toLowerCase s) "/" = startsWith s "/".
Proof.
  destruct s as [|c s]; [reflexivity|].
  unfold startsWith. cbn [toLowerCase String.prefix].
  pose proof (lowerChar_slash c) as H.
  destruct (ascii_dec "/" (lowerChar c)) as [E1 | E1];
    destruct (ascii_dec "/" c) as [E2 | E2]; try reflexivity.
  - now destruct s.
  - rewrite <- E1, Ascii.eqb_refl in H. symmetry in H.
    apply Ascii.eqb_eq in H. congruence.
  - subst c. exfalso. apply E1. reflexivity.
Qed.

Lemma beforeFirst_app (sep : ascii) (a b : string) :
  contains sep a = false ->
  beforeFirst sep (a ++ String sep b) = a.
Proof.
  induction a as [|c a IH]; cbn [append beforeFirst contains]; intros H.
  - now rewrite Ascii.eqb_refl.
  - apply orb_false_iff in H. destruct H as [Hc Ha].
    rewrite Hc. now rewrite IH.
Qed.

Lemma afterFirst_app (sep : ascii) (a b : string) :
  contains sep a = false ->
  afterFirst sep (a ++ String sep b) = b.
Proof.
  induction a as [|c a IH]; cbn [append afterFirst contains]; intros H.
  - now rewrite Ascii.eqb_refl.
  - apply orb_false_iff in H. destruct H as [Hc Ha].
    rewrite Hc. now apply IH.
Qed.

Lemma afterFirst_absent (sep : ascii) (s : string) :
  contains sep s = false ->
  beforeFirst sep s = s /\ afterFirst sep s = "".
Proof.
  induction s as [|c s IH]; cbn [beforeFirst afterFirst contains];
    intros H; [split; reflexivity|].
  apply orb_false_iff in H. destruct H as [Hc Hs].
  rewrite Hc. destruct (IH Hs) as [Hb Ha]. now rewrite Hb, Ha.
Qed.

Lemma halves_rejoin (sep : ascii) (s : string) :
  contains sep s = true ->
  (beforeFirst sep s ++ String sep (afterFirst sep s))%string = s.
Proof.
  induction s as [|c s IH]; cbn [beforeFirst afterFirst contains];
    intros H; [discriminate|].
  destruct (Ascii.eqb_spec c sep) as [-> | Hc]; [reflexivity|].
  cbn [orb] in H. cbn [append]. now rewrite IH.
Qed.

Lemma startsWith_append (a b : string) :
  startsWith a "/" = true -> startsWith (a ++ b) "/" = true.
Proof.
  destruct a as [|c a]; [discriminate|].
  unfold startsWith. cbn [append String.prefix].
  destruct (ascii_dec "/" c); [|discriminate].
  intros _. destruct (a ++ b)%string; reflexivity.
Qed.

(** X5. Whatever follows [/newpane] and one space is the content, verbatim,
    in any letter case of the command: for a word [cmd] that lower-cases to
    [/newpane] and an argument that is not all white space, the draft
    [cmd], space, [arg] parses to [NewPaneCommand arg]. *)
Theorem newpane_argument_verbatim (cmd arg : string) :
  toLowerCase cmd = "/newpane" ->
  allWhiteSpace arg = false ->
  parse (cmd ++ String " " arg) = NewPaneCommand arg.
Proof.
  intros Hcmd Harg.
  assert (Hns : contains " " cmd = false)
    by (rewrite <- contains_toLowerCase, Hcmd; reflexivity).
  assert (Hsl : startsWith (cmd ++ String " " arg) "/" = true)
    by (apply startsWith_append;
        rewrite <- startsWith_toLowerCase, Hcmd; reflexivity).
  assert (Hne : ((cmd ++ String " " arg) =? "")%string = false)
    by (apply String.eqb_neq;
        apply (startsWith_not_empty _ "/"); [discriminate | exact Hsl]).
  unfold parse. rewrite Hne, Hsl.
  rewrite commandOf_beforeFirst, contentOf_afterFirst.
  rewrite (beforeFirst_app " " cmd arg Hns), (afterFirst_app " " cmd arg Hns).
  rewrite Hcmd. cbn [String.eqb Ascii.eqb Bool.eqb andb].
  destruct (trim arg =? "")%string eqn:E; [|reflexivity].
  apply String.eqb_eq, trim_empty in E. congruence.
Qed.

Lemma newpane_argument_verbatim_witness :
  toLowerCase "/NewPane" = "/newpane"
  /\ allWhiteSpace "  two  spaces " = false
  /\ parse "/NewPane   two  spaces " = NewPaneCommand "  two  spaces ".
Proof.
  split; [reflexivity|]. split; [reflexivity|].
  exact (newpane_argument_verbatim "/NewPane" "  two  spaces "
           eq_refl eq_refl).
Defined.

(** X6. Only the space character separates the command from its content: a
    draft with no space in it is never a command, whatever other white
    space it has (a tab or a line break after [/newpane] does not count);
    it is ignored when empty and sent as it is otherwise. *)
Theorem draft_without_space_is_plain (messageDraft : string) :
  contains " " messageDraft = false ->
  parse messageDraft
  = if (messageDraft =? "")%string then Ignore else PlainMessage messageDraft.
Proof.
  intros H. unfold parse. rewrite contentOf_afterFirst.
  destruct (afterFirst_absent " " messageDraft H) as [_ ->].
  cbn [trim trimStart trimEnd String.eqb negb]. rewrite andb_false_r.
  destruct (messageDraft =? "")%string, (startsWith messageDraft "/");
    reflexivity.
Qed.

Lemma draft_without_space_is_plain_witness :
  contains " " (String "/" (String "n" (String "009" "x"))) = false
  /\ parse (String "/" (String "n" (String "009" "x")))
     = PlainMessage (String "/" (String "n" (String "009" "x"))).
Proof.
  split; [reflexivity|].
  exact (draft_without_space_is_plain
           (String "/" (String "n" (String "009" "x"))) eq_refl).
Defined.

(** X7. Splitting loses nothing: the command word and the content of
    lines 106-108 put back around one space give the draft again when the
    draft has a space; when it has none the word is the whole draft and the
    content is empty. *)
Theorem command_and_content_rebuild_draft (messageDraft : string) :
  (contains " " messageDraft = true ->
   (first (split " " messageDraft) ++ String " " (contentOf messageDraft))%string
   = messageDraft)
  /\ (contains " " messageDraft = false ->
      first (split " " messageDraft) = messageDraft
      /\ contentOf messageDraft = "").
Proof.
  rewrite first_split, contentOf_afterFirst. split.
  - apply halves_rejoin.
  - apply afterFirst_absent.
Qed.

(** ** The sizing effect beyond the claims *)

(** X8. When the content height, the larger of 55 and the natural content
    height, exceeds [innerHeight / 2.5] (in integers:
    [2 * innerHeight < 5 * contentHeight]), the height is exactly
    [innerHeight / 2.5] pixels, internal scrolling is on and the height
    transition is set, whatever the line height. *)
Theorem tall_content_is_clamped (b : Browser) (textArea : TextArea) :
  2 * innerHeight b < 5 * Z.max 55 (naturalHeight b textArea) ->
  isMaxSize b textArea = true
  /\ sizing b textArea
     = Some {| height := Some (PxHeight (inject_Z (innerHeight b) / 2.5)%Q);
               overflowY := Some OverflowAuto;
               transition := Some TransitionHeightEaseOut |}.
Proof.
  intros H.
  assert (Hm : isMaxSize b textArea = true)
    by (rewrite isMaxSize_spec; apply Z.ltb_lt; exact H).
  split; [exact Hm|]. exact (sizing_clamped b textArea Hm).
Qed.

Lemma tall_content_is_clamped_witness :
  2 * innerHeight (browser 768 "24px" 600 false)
  < 5 * Z.max 55 (naturalHeight (browser 768 "24px" 600 false)
                    (freshTextArea "many lines"))
  /\ sizing (browser 768 "24px" 600 false) (freshTextArea "many lines")
     = Some {| height := Some (PxHeight (inject_Z 768 / 2.5)%Q);
               overflowY := Some OverflowAuto;
               transition := Some TransitionHeightEaseOut |}.
Proof.
  assert (H : 2 * innerHeight (browser 768 "24px" 600 false)
              < 5 * Z.max 55 (naturalHeight (browser 768 "24px" 600 false)
                                (freshTextArea "many lines")))
    by (cbn; lia).
  split; [exact H|].
  exact (proj2 (tall_content_is_clamped (browser 768 "24px" 600 false)
                  (freshTextArea "many lines") H)).
Defined.

Lemma isMaxSize_false_le (b : Browser) (textArea : TextArea) :
  isMaxSize b textArea = false ->
  (inject_Z (contentHeight b textArea) <= maxSize b)%Q.
Proof.
  unfold isMaxSize, Qgtb. intros H.
  apply negb_false_iff in H. now apply Qle_bool_iff.
Qed.

(** X9. With a positive line height the height the effect sets is always
    below [innerHeight / 2.5] plus one line. The limit [innerHeight / 2.5]
    itself can be exceeded: a content height just under it is rounded up
    past it, as 395 is to 408 in a window of 1000 (limit 400) with lines
    of 24. Without clamping the height is at least 55. *)
Theorem height_below_limit_plus_line (b : Browser) (textArea : TextArea) :
  0 < lineHeight b ->
  (exists q : Q,
     option_map height (sizing b textArea) = Some (Some (PxHeight q))
     /\ (q < maxSize b + inject_Z (lineHeight b))%Q
     /\ (isMaxSize b textArea = false -> (inject_Z 55 <= q)%Q))
  /\ sizing (browser 1000 "24px" 395 false) (freshTextArea "x")
     = Some {| height := Some (PxHeight (inject_Z 408));
               overflowY := Some OverflowHidden;
               transition := Some TransitionNone |}
  /\ (maxSize (browser 1000 "24px" 395 false) == inject_Z 400)%Q.
Proof.
  intros Hl. split; [|split; reflexivity].
  destruct (isMaxSize b textArea) eqn:Hm.
  - exists (maxSize b). rewrite (sizing_clamped b textArea Hm).
    cbn [option_map height].
    split; [reflexivity|]. split; [|discriminate].
    rewrite <- (Qplus_0_r (maxSize b)) at 1.
    apply Qplus_lt_r. replace 0%Q with (inject_Z 0) by reflexivity.
    now rewrite <- Zlt_Qlt.
  - destruct (roundedHeight_bounds (contentHeight b textArea) (lineHeight b) Hl)
      as [_ [Hlo Hhi]].
    exists (inject_Z (roundedHeight (contentHeight b textArea) (lineHeight b))).
    rewrite (sizing_unclamped b textArea Hm). cbn [option_map height].
    split; [reflexivity|]. split.
    + apply Qlt_le_trans
        with (inject_Z (contentHeight b textArea) + inject_Z (lineHeight b))%Q.
      * rewrite <- inject_Z_plus. now rewrite <- Zlt_Qlt.
      * apply Qplus_le_l. now apply isMaxSize_false_le.
    + intros _. rewrite <- Zle_Qle.
      unfold contentHeight, minHeight in *. lia.
Qed.

Lemma height_below_limit_plus_line_witness :
  0 < lineHeight (browser 1000 "24px" 395 false)
  /\ exists q : Q,
       option_map height
         (sizing (browser 1000 "24px" 395 false) (freshTextArea "x"))
       = Some (Some (PxHeight q))
       /\ (q < maxSize (browser 1000 "24px" 395 false) + inject_Z 24)%Q.
Proof.
  split; [reflexivity|].
  destruct (proj1 (height_below_limit_plus_line
                     (browser 1000 "24px" 395 false) (freshTextArea "x")
                     eq_refl)) as (q & Hq & Hlt & _).
  exists q. split; [exact Hq | exact Hlt].
Defined.

Lemma roundedHeight_mono (c1 c2 l : Z) :
  0 < l -> c1 <= c2 -> roundedHeight c1 l <= roundedHeight c2 l.
Proof.
  intros Hl Hc.
  destruct (roundedHeight_bounds c2 l Hl) as [Hd [Hlo _]].
  apply roundedHeight_least; [exact Hl | exact Hd | lia].
Qed.

(** X10. While the height is not clamped, more content never gives a
    smaller box: of two drafts below the limit, the one with the larger
    natural content height gets a height at least as large. Across the
    limit this fails: in a window of 1000 with lines of 24 a content
    height of 395 gives 408 pixels and a content height of 405 gives the
    clamped 400. *)
Theorem unclamped_height_monotone (b : Browser) (t1 t2 : TextArea) :
  0 < lineHeight b ->
  isMaxSize b t1 = false ->
  isMaxSize b t2 = false ->
  naturalHeight b t1 <= naturalHeight b t2 ->
  (exists h1 h2 : Z,
     option_map height (sizing b t1) = Some (Some (PxHeight (inject_Z h1)))
     /\ option_map height (sizing b t2) = Some (Some (PxHeight (inject_Z h2)))
     /\ h1 <= h2)
  /\ option_map height
       (sizing (browser 1000 "24px" 395 false) (freshTextArea "x"))
     = Some (Some (PxHeight (inject_Z 408)))
  /\ option_map height
       (sizing (browser 1000 "24px" 405 false) (freshTextArea "x"))
     = Some (Some (PxHeight (inject_Z 1000 / 2.5)%Q))
  /\ (inject_Z 1000 / 2.5 < inject_Z 408)%Q.
Proof.
  intros Hl H1 H2 Hn. split; [|repeat split; reflexivity].
  exists (roundedHeight (contentHeight b t1) (lineHeight b)),
         (roundedHeight (contentHeight b t2) (lineHeight b)).
  rewrite (sizing_unclamped b t1 H1), (sizing_unclamped b t2 H2).
  split; [reflexivity|]. split; [reflexivity|].
  apply roundedHeight_mono; [exact Hl|].
  unfold contentHeight. lia.
Qed.

Lemma unclamped_height_monotone_witness :
  0 < lineHeight (LayoutScenario.lineBrowser 1000 "24px" false)
  /\ naturalHeight (LayoutScenario.lineBrowser 1000 "24px" false)
       (freshTextArea "a") = 48
  /\ naturalHeight (LayoutScenario.lineBrowser 1000 "24px" false)
       (freshTextArea (String "a" (String "010" (String "b"
                         (String "010" "c"))))) = 96
  /\ exists h1 h2 : Z,
       option_map height
         (sizing (LayoutScenario.lineBrowser 1000 "24px" false)
            (freshTextArea "a"))
       = Some (Some (PxHeight (inject_Z h1)))
       /\ option_map height
            (sizing (LayoutScenario.lineBrowser 1000 "24px" false)
               (freshTextArea (String "a" (String "010" (String "b"
                                 (String "010" "c"))))))
          = Some (Some (PxHeight (inject_Z h2)))
       /\ h1 <= h2.
Proof.
  split; [reflexivity|]. split; [reflexivity|]. split; [reflexivity|].
  exact (proj1 (unclamped_height_monotone
                  (LayoutScenario.lineBrowser 1000 "24px" false)
                  (freshTextArea "a")
                  (freshTextArea (String "a" (String "010" (String "b"
                                    (String "010" "c")))))
                  eq_refl eq_refl eq_refl ltac:(cbn; lia))).
Defined.

(** X11. What the effect touches. It never changes the text, and a null
    ref is left alone. It always leaves a pixel height, never ["auto"],
    and sets all three style properties, with scrolling on exactly when
    the transition is set (the clamped case). The scroll offset changes
    only when the element is the active element, and then it becomes the
    [scrollHeight] measured after the resize. *)
Theorem effect_frame (b : Browser) (textArea : TextArea) :
  useLayoutEffect b None = None
  /\ exists (q : Q) (o : OverflowY) (t : Transition) (y : Z),
       useLayoutEffect b (Some textArea)
       = Some {| value := value textArea;
                 style := {| height := Some (PxHeight q);
                             overflowY := Some o;
                             transition := Some t |};
                 scrollTop := y |}
       /\ (o = OverflowAuto <-> t = TransitionHeightEaseOut)
       /\ (o = OverflowAuto <-> isMaxSize b textArea = true)
       /\ y = (if isActiveElement b
               then scrollHeight b
                      {| value := value textArea;
                         style := {| height := Some (PxHeight q);
                                     overflowY := Some o;
                                     transition := Some t |};
                         scrollTop := scrollTop textArea |}
               else scrollTop textArea).
Proof.
  split; [reflexivity|].
  rewrite useLayoutEffect_sized. cbv zeta. unfold sizedStyle.
  fold (contentHeight b textArea). fold (isMaxSize b textArea).
  destruct (isMaxSize b textArea) eqn:Hm.
  - exists (maxSize b), OverflowAuto, TransitionHeightEaseOut.
    destruct (isActiveElement b); eexists;
      (split; [reflexivity|]); repeat split; auto.
  - exists (inject_Z (roundedHeight (contentHeight b textArea) (lineHeight b))),
           OverflowHidden, TransitionNone.
    destruct (isActiveElement b); eexists;
      (split; [reflexivity|]); repeat split; auto; discriminate.
Qed.

(** ** Header, clicks, focus and the row of panes *)

(** X12. The header of a pane is never blank: it shows the title of the
    conversation when there is one and it is not empty, and
    ["New conversation"] when the conversation is not loaded, has no title
    or has the empty title. The dropdown is shown exactly when the
    conversation is loaded. *)
Theorem header_title_never_blank {PresetId : Type}
    (conversation : option (Conversation PresetId)) :
  headerTitle conversation <> ""
  /\ (forall t, titleOf conversation = Some t -> t <> "" ->
                headerTitle conversation = t)
  /\ (titleOf conversation = None \/ titleOf conversation = Some "" ->
      headerTitle conversation = "New conversation")
  /\ (showsDropdown conversation = false ->
      headerTitle conversation = "New conversation").
Proof.
  unfold headerTitle. repeat split.
  - destruct (titleOf conversation) as [t|]; [|discriminate].
    destruct (String.eqb_spec t ""); [discriminate | assumption].
  - intros t -> Hne. apply String.eqb_neq in Hne. now rewrite Hne.
  - intros [-> | ->]; reflexivity.
  - destruct conversation; [discriminate | reflexivity].
Qed.


Lemma filter_active_absent (a : string) (panes : list (string * Pane)) :
  ~ In a (map fst panes) ->
  filter (fun p => isActivePane (Some a) (paneId p))
    (map (fun entry => mkPaneProps (snd entry) (fst entry)) panes) = [].
Proof.
  induction panes as [|[k p] panes IH]; [reflexivity|].
  cbn [map fst snd filter paneId isActivePane]. intros Hn.
  destruct (String.eqb_spec a k) as [-> | Hk].
  - exfalso. apply Hn. now left.
  - apply IH. intros Hin. apply Hn. now right.
Qed.

Lemma filter_active_present (a : string) (pane : Pane)
    (panes : list (string * Pane)) :
  NoDup (map fst panes) ->
  In (a, pane) panes ->
  filter (fun p => isActivePane (Some a) (paneId p))
    (map (fun entry => mkPaneProps (snd entry) (fst entry)) panes)
  = [mkPaneProps pane a].
Proof.
  induction panes as [|[k p] panes IH]; [intros _ []|].
  cbn [map fst snd filter paneId isActivePane In]. intros Hnd Hin.
  inversion Hnd as [|? ? Hk Hnd']; subst.
  destruct (String.eqb_spec a k) as [-> | Hne].
  - destruct Hin as [Heq | Hin].
    + injection Heq as ->. f_equal. now apply filter_active_absent.
    + exfalso. apply Hk. apply (in_map fst) in Hin. exact Hin.
  - destruct Hin as [Heq | Hin]; [congruence|]. now apply IH.
Qed.

Lemma Panes_row (panes : list (string * Pane)) :
  panes <> [] ->
  Panes panes
  = PaneRow (map (fun entry => mkPaneProps (snd entry) (fst entry)) panes).
Proof. destruct panes; [congruence | reflexivity]. Qed.

(** X14. The row of panes. The start page is shown exactly when there is
    no pane; otherwise every entry is rendered once, in order, under its
    own id. As the ids of the record are distinct, at most one rendered
    pane is the active one: exactly the pane whose id is the active id
    when that id is in the record, and none when there is no active id or
    it names no pane. *)
Theorem at_most_one_active_pane (panes : list (string * Pane))
    (activePaneId : option string) :
  NoDup (map fst panes) ->
  (Panes panes = StartPage <-> panes = [])
  /\ (panes <> [] ->
      exists ps, Panes panes = PaneRow ps
                 /\ map (fun p => (paneId p, pane p)) ps = panes)
  /\ (List.length (activePanes activePaneId (Panes panes)) <= 1)%nat
  /\ (forall a p, activePaneId = Some a -> In (a, p) panes ->
        activePanes activePaneId (Panes panes) = [mkPaneProps p a])
  /\ (activePaneId = None
      \/ (exists a, activePaneId = Some a /\ ~ In a (map fst panes)) ->
      activePanes activePaneId (Panes panes) = []).
Proof.
  intros Hnd.
  assert (Hpresent : forall a p, activePaneId = Some a -> In (a, p) panes ->
            activePanes activePaneId (Panes panes) = [mkPaneProps p a]).
  { intros a p -> Hin.
    rewrite Panes_row by (intros ->; destruct Hin).
    now apply filter_active_present. }
  assert (Habsent : activePaneId = None
            \/ (exists a, activePaneId = Some a /\ ~ In a (map fst panes)) ->
            activePanes activePaneId (Panes panes) = []).
  { destruct panes as [|e panes']; [reflexivity|].
    rewrite Panes_row by discriminate.
    intros [-> | (a & -> & Hn)].
    - cbn [activePanes].
      generalize (map (fun entry : string * Pane =>
                         mkPaneProps (snd entry) (fst entry)) (e :: panes')).
      intros l. induction l as [|x l IHl]; [reflexivity | exact IHl].
    - now apply filter_active_absent. }
  split; [|split; [|split; [|split]]].
  - destruct panes; split; intros H; try reflexivity; discriminate.
  - intros Hne. rewrite (Panes_row panes Hne). eexists.
    split; [reflexivity|]. rewrite map_map. cbn.
    rewrite <- (map_id panes) at 2. apply map_ext. now intros [k p].
  - destruct activePaneId as [a|].
    + destruct (in_dec string_dec a (map fst panes)) as [Hin | Hn].
      * apply in_map_iff in Hin. destruct Hin as ([k p] & Hk & Hin).
        cbn in Hk. subst k. rewrite (Hpresent a p eq_refl Hin). cbn. lia.
      * rewrite Habsent by (right; now exists a). cbn. lia.
    + rewrite Habsent by now left. cbn. lia.
  - exact Hpresent.
  - exact Habsent.
Qed.

Lemma at_most_one_active_pane_witness :
  NoDup (map fst [("a", mkPane 1); ("b", mkPane 2); ("c", mkPane 3)])
  /\ activePanes (Some "b")
       (Panes [("a", mkPane 1); ("b", mkPane 2); ("c", mkPane 3)])
     = [mkPaneProps (mkPane 2) "b"].
Proof.
  assert (Hnd : NoDup (map fst [("a", mkPane 1); ("b", mkPane 2);
                                ("c", mkPane 3)])).
  { cbn. repeat constructor; cbn; intuition discriminate. }
  split; [exact Hnd|].
  exact (proj1 (proj2 (proj2 (proj2
    (at_most_one_active_pane
       [("a", mkPane 1); ("b", mkPane 2); ("c", mkPane 3)] (Some "b") Hnd))))
    "b" (mkPane 2) eq_refl (or_intror (or_introl eq_refl))).
Defined.

Lemma sameDeps_refl (d : FocusDeps) : sameDeps d d = true.
Proof.
  unfold sameDeps. destruct (depConversationId d) as [x|];
    [rewrite Z.eqb_refl|]; now destruct (depIsActive d).
Qed.

(** X15. When the input takes focus. At mount the text area takes the
    focus by its [autoFocus] attribute, whether or not the pane is active
    or its conversation loaded. After mount only the hook focuses it: a
    render whose conversation id and active flag are those of the previous
    render never does, so typing does not pull the focus back; a render
    where one of the two has changed does exactly when the pane is active,
    the conversation id is a number other than 0 and the element exists,
    so an active pane is focused at the render where its conversation
    resolves. After mount a pane takes focus only if it is the active pane
    and its conversation is loaded. *)
Theorem focus_only_on_change {PresetId : Type} (isActive : bool)
    (conversationId : option ConversationId) (refCurrent : bool) :
  useFocusInputOnActive (Some (mkFocusDeps conversationId isActive))
    isActive conversationId refCurrent = false
  /\ useFocusInputOnActive None isActive conversationId refCurrent
     = isActive && truthyId conversationId && refCurrent
  /\ (forall prev, sameDeps prev (mkFocusDeps conversationId isActive) = false ->
        useFocusInputOnActive (Some prev) isActive conversationId refCurrent
        = isActive && truthyId conversationId && refCurrent)
  /\ (forall n, n <> 0 ->
        useFocusInputOnActive (Some (mkFocusDeps None true)) true (Some n) true
        = true)
  /\ (forall prev, useFocusInputOnActive prev isActive (Some 0) refCurrent
                   = false)
  /\ (forall activePaneId paneId
        (conversation : option (Conversation PresetId)),
        paneFocus None activePaneId paneId conversation true = true)
  /\ (forall p activePaneId paneId
        (conversation : option (Conversation PresetId)),
        paneFocus (Some p) activePaneId paneId conversation refCurrent = true ->
        activePaneId = Some paneId
        /\ (exists c, conversation = Some c /\ PaneInput.id PresetId c <> 0)
        /\ sameDeps p (mkFocusDeps (idOf conversation)
                         (isActivePane activePaneId paneId)) = false).
Proof.
  unfold useFocusInputOnActive, focusBody.
  split; [now rewrite sameDeps_refl|].
  split; [reflexivity|].
  split; [intros prev ->; reflexivity|].
  split; [intros n Hn; destruct n; [congruence | reflexivity | reflexivity]|].
  split; [intros prev; cbn; now rewrite andb_false_r, andb_false_r|].
  split; [reflexivity|].
  intros p activePaneId paneId0 conversation H.
  unfold paneFocus, autoFocus, useFocusInputOnActive, focusBody in H.
  cbn [orb] in H.
  apply andb_true_iff in H. destruct H as [Hd H].
  apply andb_true_iff in H. destruct H as [H _].
  apply andb_true_iff in H. destruct H as [Ha Ht].
  split; [|split].
  - unfold isActivePane in Ha. destruct activePaneId as [a|]; [|discriminate].
    f_equal. now apply String.eqb_eq.
  - destruct conversation as [c|]; [|discriminate].
    exists c. split; [reflexivity|]. cbn in Ht.
    destruct (PaneInput.id PresetId c); [discriminate | lia | lia].
  - now apply negb_true_iff.
Qed.

(** ** The configuration dropdown *)

Lemma find_first_match {A : Type} (f : A -> bool) (pre post : list A) (c : A) :
  (forall d, In d pre -> f d = false) ->
  f c = true ->
  find f (pre ++ c :: post) = Some c.
Proof.
  intros Hpre Hc. induction pre as [|d pre IH]; cbn.
  - now rewrite Hc.
  - rewrite (Hpre d (or_introl eq_refl)). apply IH.
    intros d' Hd'. apply Hpre. now right.
Qed.

Lemma find_none_all {A : Type} (f : A -> bool) (l : list A) :
  (forall d, In d l -> f d = false) -> find f l = None.
Proof.
  intros H. induction l as [|d l IH]; [reflexivity|]. cbn.
  rewrite (H d (or_introl eq_refl)). apply IH.
  intros d' Hd'. apply H. now right.
Qed.

(** X16. The trigger of the dropdown names the first configuration of the
    list whose id is the preset of the conversation, by its title. It
    reads ["Chat config: Default"] while the list is not loaded, when the
    conversation has no preset, and when no configuration of the list has
    the preset's id (a preset that has been deleted). *)
Theorem trigger_names_current_config {PresetId : Type}
    (PresetId_eqb : PresetId -> PresetId -> bool)
    (chatConfigs : option (list (Dropdown.ChatConfig PresetId)))
    (conversation : Conversation PresetId) :
  (forall x y, PresetId_eqb x y = true <-> x = y) ->
  (forall pre c post q t,
     chatConfigs = Some (pre ++ c :: post)%list ->
     presetId conversation = Some q ->
     Dropdown.id c = q ->
     (forall d, In d pre -> Dropdown.id d <> q) ->
     Dropdown.title c = Some t ->
     Dropdown.triggerLabel PresetId_eqb chatConfigs conversation
     = ("Chat config: " ++ t)%string)
  /\ (chatConfigs = None
      \/ presetId conversation = None
      \/ (exists cs q, chatConfigs = Some cs
                       /\ presetId conversation = Some q
                       /\ forall d, In d cs -> Dropdown.id d <> q) ->
      Dropdown.triggerLabel PresetId_eqb chatConfigs conversation
      = "Chat config: Default").
Proof.
  intros Heqb.
  assert (Hneq : forall x y, x <> y -> PresetId_eqb x y = false).
  { intros x y Hxy. destruct (PresetId_eqb x y) eqn:E; [|reflexivity].
    apply Heqb in E. contradiction. }
  unfold Dropdown.triggerLabel, Dropdown.currentChatConfig. split.
  - intros pre c post q t -> -> Hc Hpre Ht.
    rewrite (find_first_match _ pre post c).
    + now rewrite Ht.
    + intros d Hd. apply Hneq. now apply Hpre.
    + now apply Heqb.
  - intros [-> | [Hp | (cs & q & -> & -> & Hall)]].
    + reflexivity.
    + rewrite Hp. destruct chatConfigs as [cs|]; [|reflexivity].
      rewrite find_none_all; [reflexivity | reflexivity].
    + rewrite find_none_all; [reflexivity|].
      intros d Hd. apply Hneq. now apply Hall.
Qed.

Lemma trigger_names_current_config_witness :
  (forall x y : string, (x =? y)%string = true <-> x = y)
  /\ Dropdown.triggerLabel String.eqb
       (Some [Dropdown.mkChatConfig "a" (Some "Coder");
              Dropdown.mkChatConfig "b" (Some "Poet");
              Dropdown.mkChatConfig "b" (Some "Shadowed")])
       (mkConversation string 3 None (Some "b"))
     = "Chat config: Poet"
  /\ Dropdown.triggerLabel String.eqb
       (Some [Dropdown.mkChatConfig "a" (Some "Coder")])
       (mkConversation string 3 None (Some "gone"))
     = "Chat config: Default".
Proof.
  split; [exact String.eqb_eq|]. split.
  - refine (proj1 (trigger_names_current_config String.eqb
              (Some [Dropdown.mkChatConfig "a" (Some "Coder");
                     Dropdown.mkChatConfig "b" (Some "Poet");
                     Dropdown.mkChatConfig "b" (Some "Shadowed")])
              (mkConversation string 3 None (Some "b")) String.eqb_eq)
              [Dropdown.mkChatConfig "a" (Some "Coder")]
              (Dropdown.mkChatConfig "b" (Some "Poet"))
              [Dropdown.mkChatConfig "b" (Some "Shadowed")]
              "b" "Poet" eq_refl eq_refl eq_refl _ eq_refl).
    intros d [<- | []]. discriminate.
  - refine (proj2 (trigger_names_current_config String.eqb
              (Some [Dropdown.mkChatConfig "a" (Some "Coder")])
              (mkConversation string 3 None (Some "gone")) String.eqb_eq)
              (or_intror (or_intror _))).
    exists [Dropdown.mkChatConfig "a" (Some "Coder")], "gone".
    split; [reflexivity|]. split; [reflexivity|].
    intros d [<- | []]. discriminate.
Defined.

(** X17. The menu always offers the default, loaded list or not, after one
    heading that selects nothing; every configuration of the list follows
    once, in the order of the list, and selects its own id. The
    configuration the trigger names is always one of the items. *)
Theorem menu_offers_every_config {PresetId : Type}
    (PresetId_eqb : PresetId -> PresetId -> bool)
    (chatConfigs : option (list (Dropdown.ChatConfig PresetId)))
    (conversation : Conversation PresetId) :
  (exists rest,
     Dropdown.menuItems chatConfigs
     = (Some "Select chat config", Dropdown.NoChoice)
       :: (Some "Default chat", Dropdown.DefaultChoice) :: rest
     /\ map snd rest
        = map (fun c => Dropdown.ConfigChoice (Dropdown.id c))
            (match chatConfigs with Some cs => cs | None => [] end))
  /\ (forall c,
        Dropdown.currentChatConfig PresetId_eqb chatConfigs conversation
        = Some c ->
        In (Dropdown.title c, Dropdown.ConfigChoice (Dropdown.id c))
           (Dropdown.menuItems chatConfigs)).
Proof.
  split.
  - eexists. split; [reflexivity|].
    destruct chatConfigs as [cs|]; [|reflexivity].
    now rewrite map_map.
  - intros c Hc. unfold Dropdown.currentChatConfig in Hc.
    destruct chatConfigs as [cs|]; [|discriminate].
    apply find_some in Hc. destruct Hc as [Hin _].
    cbn. right. right.
    apply (in_map (fun c => (Dropdown.title c,
                             Dropdown.ConfigChoice (Dropdown.id c)))) in Hin.
    exact Hin.
Qed.

(** ** Typing, then Enter *)

(** X18. What is typed is what is sent. [onInput] replaces the draft by the
    value of the text area whatever it held before; an Enter at the next
    render then sends exactly that value, when it is not empty and does not
    start with [/], to the conversation of the pane, and leaves the draft
    empty; the handler fulfils when the send does and rejects when the
    send is rejected, the draft staying empty. *)
Theorem typed_text_is_sent {PresetId : Type} (props : PaneProps)
    (conversation : option (Conversation PresetId)) (v : string)
    (e : KeyboardEvent) (w : World PresetId) :
  v <> "" ->
  startsWith v "/" = false ->
  isSubmission e = true ->
  draft (snd (onInput v w)) = v
  /\ keydownOnRender props conversation e (snd (onInput v w))
     = (settled (dispatch_fulfils w
                   (sendMessage (conversationId (pane props)) v)),
        {| draft := "";
           db_addConversation := db_addConversation w;
           dispatch_fulfils := dispatch_fulfils w;
           trace := trace w ++
             [SetMessageDraft v; PreventDefault; SetMessageDraft "";
              Dispatch (sendMessage (conversationId (pane props)) v) true] |}).
Proof.
  intros Hne Hs He. split; [reflexivity|].
  unfold keydownOnRender, onInput, setMessageDraft. cbn [snd draft].
  rewrite (onKeydown_perform _ props conversation v e He).
  apply String.eqb_neq in Hne.
  assert (Hp : parse v = PlainMessage v)
    by (unfold parse; now rewrite Hne, Hs).
  rewrite Hp, perform_plain. cbn [db_addConversation dispatch_fulfils trace].
  now rewrite <- app_assoc.
Qed.

Lemma typed_text_is_sent_witness :
  "hello" <> ""
  /\ startsWith "hello" "/" = false
  /\ isSubmission enterKey = true
  /\ allMessages
       (trace (snd (keydownOnRender paneA None enterKey
                      (snd (onInput "hello" (before "old text" storeFails))))))
     = [(3, "hello")].
Proof.
  split; [discriminate|]. split; [reflexivity|]. split; [reflexivity|].
  rewrite (proj2 (typed_text_is_sent paneA None "hello" enterKey
                    (before "old text" storeFails)
                    ltac:(discriminate) eq_refl eq_refl)).
  reflexivity.
Defined.

(** The same keys with a send that is rejected: the handler rejects, the
    draft is empty all the same. *)
Example typed_text_send_rejected :
  fst (keydownOnRender paneA None enterKey
         (snd (onInput "hello" (beforeRejecting "old text" storeFails))))
  = Rejected
  /\ draft (snd (keydownOnRender paneA None enterKey
         (snd (onInput "hello" (beforeRejecting "old text" storeFails)))))
     = "".
Proof. split; reflexivity. Qed.

(** ** Plain messages and the active pane *)

Lemma find_pane_entry (a : string) (p : Pane) (panes : list (string * Pane)) :
  NoDup (map fst panes) ->
  In (a, p) panes ->
  find (fun entry => (fst entry =? a)%string) panes = Some (a, p).
Proof.
  induction panes as [|[k q] panes IH]; [intros _ []|].
  cbn [map fst find In]. intros Hnd Hin.
  inversion Hnd as [|? ? Hk Hnd']; subst.
  destruct (String.eqb_spec k a) as [-> | Hne].
  - destruct Hin as [Heq | Hin]; [congruence|].
    exfalso. apply Hk. apply (in_map fst) in Hin. exact Hin.
  - destruct Hin as [Heq | Hin]; [congruence|]. now apply IH.
Qed.

(** C6 (counterexample). The empty draft does not start with [/], yet
    submitting it sends no message at all. And the message of a draft goes
    to the conversation of the pane whose input received the key, which is
    not the conversation of the active pane when another pane is the
    active one: Enter in the pane bound to conversation 3 while the pane
    bound to conversation 4 is active sends to 3. *)
Lemma plain_draft_claim_fails :
  (startsWith "" "/" = false
   /\ isSubmission enterKey = true
   /\ allMessages
        (trace (snd (onKeydown paneA None "" enterKey (before "" storeFails))))
      = [])
  /\ (activeConversation [("pane-a", mkPane 3); ("pane-b", mkPane 4)]
        (Some "pane-b") = Some 4
      /\ isActivePane (Some "pane-b") (paneId paneA) = false
      /\ allMessages
           (trace (snd (onKeydown paneA None "hi" enterKey
                          (before "hi" storeFails))))
         = [(3, "hi")]).
Proof. repeat split; reflexivity. Qed.

(** C6 (amended). For every non-empty draft [s] that does not start with
    [/], submitting [s] with no modifier clears the draft and dispatches
    exactly one [sendMessage], with body [s] as typed, to the conversation
    of the pane whose input received the key; when that pane is the active
    pane of the record this is the conversation bound to the active pane.
    No timer is set and the store is not called. The handler awaits the
    send: it fulfils when the send does and rejects when the send is
    rejected, the draft staying cleared. *)
Theorem plain_draft_sent_once {PresetId : Type} (props : PaneProps)
    (conversation : option (Conversation PresetId)) (s : string)
    (e : KeyboardEvent) (w : World PresetId)
    (panes : list (string * Pane)) (activePaneId : option string) :
  s <> "" ->
  startsWith s "/" = false ->
  isSubmission e = true ->
  NoDup (map fst panes) ->
  In (paneId props, pane props) panes ->
  activePaneId = Some (paneId props) ->
  parse s = PlainMessage s
  /\ onKeydown props conversation s e w
     = (settled (dispatch_fulfils w
                   (sendMessage (conversationId (pane props)) s)),
        {| draft := "";
           db_addConversation := db_addConversation w;
           dispatch_fulfils := dispatch_fulfils w;
           trace := trace w ++
             [PreventDefault; SetMessageDraft "";
              Dispatch (sendMessage (conversationId (pane props)) s) true] |})
  /\ allMessages
       [PreventDefault (PresetId := PresetId); SetMessageDraft "";
        Dispatch (sendMessage (conversationId (pane props)) s) true]
     = [(conversationId (pane props), s)]
  /\ activeConversation panes activePaneId
     = Some (conversationId (pane props)).
Proof.
  intros Hne Hs He Hnd Hin ->. apply String.eqb_neq in Hne.
  assert (Hp : parse s = PlainMessage s)
    by (unfold parse; now rewrite Hne, Hs).
  split; [exact Hp|]. split; [|split; [reflexivity|]].
  - rewrite (onKeydown_perform _ props conversation s e He), Hp.
    apply perform_plain.
  - unfold activeConversation.
    now rewrite (find_pane_entry _ _ panes Hnd Hin).
Qed.

Lemma plain_draft_sent_once_witness :
  " hi there " <> ""
  /\ startsWith " hi there " "/" = false
  /\ isSubmission enterKey = true
  /\ NoDup (map fst [("pane-a", mkPane 3); ("pane-b", mkPane 4)])
  /\ In (paneId paneA, pane paneA) [("pane-a", mkPane 3); ("pane-b", mkPane 4)]
  /\ onKeydown paneA None " hi there " enterKey
       (before " hi there " storeFails)
     = (Fulfilled tt,
        {| draft := "";
           db_addConversation := storeFails;
           dispatch_fulfils := sendsFulfil;
           trace := [PreventDefault; SetMessageDraft "";
                     Dispatch (sendMessage 3 " hi there ") true] |})
  /\ fst (onKeydown paneA None " hi there " enterKey
            (beforeRejecting " hi there " storeFails))
     = Rejected
  /\ activeConversation [("pane-a", mkPane 3); ("pane-b", mkPane 4)]
       (Some "pane-a") = Some 3.
Proof.
  assert (Hnd : NoDup (map fst [("pane-a", mkPane 3); ("pane-b", mkPane 4)])).
  { cbn. repeat constructor; cbn; intuition discriminate. }
  assert (Hne : " hi there " <> "") by discriminate.
  split; [exact Hne|]. split; [reflexivity|]. split; [reflexivity|].
  split; [exact Hnd|]. split; [left; reflexivity|].
  split; [|split].
  - exact (proj1 (proj2
      (plain_draft_sent_once paneA None " hi there " enterKey
         (before " hi there " storeFails)
         [("pane-a", mkPane 3); ("pane-b", mkPane 4)] (Some "pane-a")
         Hne eq_refl eq_refl Hnd (or_introl eq_refl) eq_refl))).
  - rewrite (proj1 (proj2
      (plain_draft_sent_once paneA None " hi there " enterKey
         (beforeRejecting " hi there " storeFails)
         [("pane-a", mkPane 3); ("pane-b", mkPane 4)] (Some "pane-a")
         Hne eq_refl eq_refl Hnd (or_introl eq_refl) eq_refl))).
    reflexivity.
  - exact (proj2 (proj2 (proj2
      (plain_draft_sent_once paneA None " hi there " enterKey
         (before " hi there " storeFails)
         [("pane-a", mkPane 3); ("pane-b", mkPane 4)] (Some "pane-a")
         Hne eq_refl eq_refl Hnd (or_introl eq_refl) eq_refl)))).
Defined.

(** ** Sizing under a layout with scrollbars *)

